(** * usbmachine.py: Android Open Accessory negotiation and data loops

    A shallow embedding of the [App] class of [src/usbmachine.py].

    The methods of [App] talk to the outside world through pyusb
    ([set_configuration], [ctrl_transfer], [usb.core.find], endpoint
    [read]/[write], [detach_kernel_driver]), through the rich console and
    through [print].  A run is modelled by explicit state passing: the state
    holds the [device] field of the [App] object, the replies the outside
    world is going to give to the blocking calls, in order, and the log of
    everything the program did so far.  A call takes the next reply; a reply
    may be an exception.  When no reply is left the call never returns
    ([Blocked]).

    Modelled: [prepare_device] with its three commands [set_protocol],
    [send_accessory_parameters] and [set_accessory_mode], and the two data
    loops [accept_data] and [write]; further down, with replies and a log of
    their own, [select_device], [write_arduino] and [main].  [print],
    [console.print] and [time.sleep] are logged and always return; an
    interrupt is seen where a blocking call raises it.  *)

From Stdlib Require Import ZArith NArith List String Ascii Bool DecimalString Lia.
From Stdlib Require Strings.Byte.
Import ListNotations.

#[local] Open Scope string_scope.
#[local] Open Scope list_scope.
#[local] Open Scope Z_scope.

(** ** Data *)

(** A [usb.core.Device], identified by its place on the bus. *)
Definition handle := nat.

Record Endpoint := mkEndpoint { bEndpointAddress : Z }.

Record Interface := mkInterface {
  bInterfaceNumber : Z;
  endpoints : list Endpoint
}.

(** The interfaces of a configuration in the order pyusb iterates over them:
    interface 0 with its alternate settings first, so that [cfg[(0, 0)]] is
    the head. *)
Definition Configuration := list Interface.

(** The Python exceptions that occur in runs of the program.  The [errno]
    of a [USBError] may be [None]. *)
Inductive exn :=
| USBError (errno : option Z) (strerror : string)
| ValueError (msg : string)
| IndexError
| AttributeError
| TypeError
| EOFError
| KeyboardInterrupt
| SystemExit (code : Z).

(** Fifth argument of [ctrl_transfer]: a length to read or the data to write. *)
Inductive payload :=
| WLength (n : Z)
| Data (s : string).

(** The blocking calls into pyusb and the console. *)
Inductive call :=
| SetConfiguration (dev : handle)
| CtrlTransfer (dev : handle) (bmRequestType bRequest wValue wIndex : Z)
    (data_or_wLength : payload) (timeout : option Z)
| Find
| GetActiveConfiguration (dev : handle)
| EpRead (ep : Endpoint) (size_or_buffer timeout : Z)
| EpWrite (ep : Endpoint) (data : string)
| DetachKernelDriver (dev : handle) (interface : Z)
| ConsoleInput (prompt : string).

(** What the program does, in order. *)
Inductive event :=
| Called (c : call)
| ConsolePrint (s : string)
| ConsolePrintException (e : exn)
| Print (s : string)
| Sleep (secs : Z).

(** What a call gives back. *)
Inductive reply :=
| RNone
| RArray (data : list Byte.byte)
| RInt (n : Z)
| RDevice (d : option handle)
| RConfig (cfg : Configuration)
| RLine (s : string)
| RRaise (e : exn).

Record state := mkState {
  device : option handle;
  pending : list reply;
  trace : list event
}.

(** ** Runs *)

Inductive stop :=
| Blocked      (* a call that never returns: no reply is left *)
| IllShaped    (* a reply that pyusb cannot give to this call *)
| OutOfFuel.   (* a loop that goes round without calling *)

Inductive outcome (A : Type) :=
| Ret (a : A)
| Raise (e : exn)
| Stop (s : stop).

Arguments Ret {A} a.
Arguments Raise {A} e.
Arguments Stop {A} s.

Definition M (A : Type) := state -> outcome A * state.

Definition ret {A} (a : A) : M A := fun st => (Ret a, st).

Definition raise {A} (e : exn) : M A := fun st => (Raise e, st).

Definition halt {A} (s : stop) : M A := fun st => (Stop s, st).

Definition bind {A B} (m : M A) (f : A -> M B) : M B := fun st =>
  match m st with
  | (Ret a, st') => f a st'
  | (Raise e, st') => (Raise e, st')
  | (Stop s, st') => (Stop s, st')
  end.

Declare Scope py_scope.
Delimit Scope py_scope with py.
Notation "x <- m ;; k" := (bind m (fun x => k))
  (at level 61, m at next level, right associativity) : py_scope.
Notation "m ;; k" := (bind m (fun _ => k))
  (at level 61, right associativity) : py_scope.
#[local] Open Scope py_scope.

(** [try: body  except ...: handler  else: orelse].  [handler e] is [None]
    when no [except] clause matches [e]. *)
Definition try_except_else {A B} (body : M A) (handler : exn -> option (M B))
    (orelse : A -> M B) : M B := fun st =>
  match body st with
  | (Ret a, st') => orelse a st'
  | (Raise e, st') =>
      match handler e with
      | Some h => h st'
      | None => (Raise e, st')
      end
  | (Stop s, st') => (Stop s, st')
  end.

Definition try_except {A} (body : M A) (handler : exn -> option (M A)) : M A :=
  try_except_else body handler ret.

Definition pass : M unit := ret tt.

(** [if c: m] without [else]. *)
Definition when (c : bool) (m : M unit) : M unit := if c then m else ret tt.

Definition log (ev : event) : M unit := fun st =>
  (Ret tt, mkState (device st) (pending st) (trace st ++ [ev])).

(** A blocking call: it is logged, then it takes the next reply. *)
Definition invoke (c : call) : M reply := fun st =>
  let tr := trace st ++ [Called c] in
  match pending st with
  | [] => (Stop Blocked, mkState (device st) [] tr)
  | RRaise e :: rest => (Raise e, mkState (device st) rest tr)
  | r :: rest => (Ret r, mkState (device st) rest tr)
  end.

(** [self.device.<attr>]: an [AttributeError] when the field holds [None]. *)
Definition self_device : M handle := fun st =>
  match device st with
  | Some dev => (Ret dev, st)
  | None => (Raise AttributeError, st)
  end.

(** [self.device = dev] *)
Definition set_device (dev : handle) : M unit := fun st =>
  (Ret tt, mkState (Some dev) (pending st) (trace st)).

Definition console_print (s : string) : M unit := log (ConsolePrint s).
Definition console_print_exception (e : exn) : M unit := log (ConsolePrintException e).
Definition print (s : string) : M unit := log (Print s).
Definition sleep (secs : Z) : M unit := log (Sleep secs).
Definition sys_exit {A} (code : Z) : M A := raise (SystemExit code).

(** ** Python values *)

Definition len (s : string) : Z := Z.of_nat (String.length s).

Definition str_N (n : N) : string := NilZero.string_of_uint (N.to_uint n).
Definition str_Z (z : Z) : string := NilZero.string_of_int (Z.to_int z).

(** [str(e)]; for a [USBError] the text of an [OSError(errno, strerror)]. *)
Definition str_exn (e : exn) : string :=
  match e with
  | USBError (Some n) s => ("[Errno " ++ str_Z n ++ "] " ++ s)%string
  | USBError None s => ("[Errno None] " ++ s)%string
  | ValueError msg => msg
  | SystemExit code => str_Z code
  | _ => ""
  end.

(** [e.errno == n] *)
Definition errno_eq (errno : option Z) (n : Z) : bool :=
  match errno with
  | Some k => k =? n
  | None => false
  end.

(** [r != n] for an int [n]: a value that is not an int differs from it. *)
Definition ne_int (r : reply) (n : Z) : bool :=
  match r with
  | RInt k => negb (k =? n)
  | _ => true
  end.

(** Truth value of a reply, as [if r:] and [if not r:] test it. *)
Definition truthy (r : reply) : bool :=
  match r with
  | RNone => false
  | RArray data => negb (Nat.eqb (List.length data) 0)
  | RInt n => negb (n =? 0)
  | RDevice d => match d with Some _ => true | None => false end
  | RConfig _ => true
  | RLine s => negb (Nat.eqb (String.length s) 0)
  | RRaise _ => true
  end.

Definition expect_array (r : reply) : M (list Byte.byte) :=
  match r with
  | RArray data => ret data
  | _ => halt IllShaped
  end.

Definition expect_config (r : reply) : M Configuration :=
  match r with
  | RConfig cfg => ret cfg
  | _ => halt IllShaped
  end.

Definition expect_line (r : reply) : M string :=
  match r with
  | RLine s => ret s
  | _ => halt IllShaped
  end.

(** [seq[0]] *)
Definition getitem0 {A} (l : list A) : M A :=
  match l with
  | x :: _ => ret x
  | [] => raise IndexError
  end.

(** [obj.<attr>] on an [Optional] value. *)
Definition deref {A} (o : option A) : M A :=
  match o with
  | Some x => ret x
  | None => raise AttributeError
  end.

(** ** pyusb helpers: [usb.util] *)

Definition ENDPOINT_IN : Z := 0x80.
Definition ENDPOINT_OUT : Z := 0x00.

Definition endpoint_direction (address : Z) : Z := Z.land address 0x80.

(** [usb.util.find_descriptor(desc, custom_match=...)] and
    [find_descriptor(desc, attr=v)]: the first match, or [None]. *)
Definition find_descriptor {D} (desc : list D) (matches : D -> bool) : option D :=
  List.find matches desc.

(** ** Negotiation *)

Definition set_protocol : M unit :=
  try_except
    (dev <- self_device ;;
     _ <- invoke (SetConfiguration dev) ;;
     ret tt)
    (fun e =>
       match e with
       | USBError errno _ =>
           Some (when (errno_eq errno 16) pass ;;  (* 16 == already configured *)
                 raise e)
       | _ => None
       end) ;;
  dev <- self_device ;;
  r <- invoke (CtrlTransfer dev 0xC0 51 0 0 (WLength 2) None) ;;
  data <- expect_array r ;;
  protocol <- getitem0 data ;;
  if (Byte.to_N protocol <? 2)%N
  then raise (ValueError ("Protocol version " ++ str_N (Byte.to_N protocol)
                          ++ " < 2 is not supported")%string)
  else ret tt.

Definition send_string (str_id : Z) (str_val : string) : M unit :=
  dev <- self_device ;;
  r <- invoke (CtrlTransfer dev 0x40 52 0 str_id (Data str_val) (Some 0)) ;;
  if ne_int r (len str_val)
  then raise (ValueError "Received non-valid response")
  else ret tt.

Definition send_accessory_parameters : M unit :=
  send_string 0 "dvpashkevich" ;;
  send_string 1 "PyAndroidCompanion" ;;
  send_string 2 "A Python based Android accessory companion" ;;
  send_string 3 "0.1.0" ;;
  send_string 4 "https://github.com/alien-agent/USB-Communicator-Script" ;;
  send_string 5 "0000-0000-0000" ;;
  ret tt.

Definition set_accessory_mode : M unit :=
  dev <- self_device ;;
  r <- invoke (CtrlTransfer dev 0x40 53 0 0 (Data "") (Some 0)) ;;
  (if truthy r
   then raise (ValueError "Failed to trigger accessory mode")
   else ret tt) ;;
  sleep 1 ;;
  (* Must reconnect *)
  found <- invoke Find ;;
  if negb (truthy found)
  then raise (ValueError
         "Device gone missing after accessory mode trigger, please restart")
  else
    match found with
    | RDevice (Some dev') => set_device dev'
    | _ => halt IllShaped
    end.

Fixpoint run_commands (commands : list (string * M unit)) : M unit :=
  match commands with
  | [] => ret tt
  | (command_name, command) :: rest =>
      console_print (command_name ++ "......... ")%string ;;
      try_except_else command
        (fun e => Some (console_print "[bold red]FAIL" ;;
                        console_print_exception e ;;
                        sys_exit 1))
        (fun _ => console_print "[bold green]OK") ;;
      run_commands rest
  end.

Definition prepare_device : M unit :=
  run_commands
    [ ("Verifying protocol", set_protocol);
      ("Sending accessory parameters", send_accessory_parameters);
      ("Triggering accessory mode", set_accessory_mode) ].

(** ** Data phase *)

Inductive ctl := Continue | Break.

(** [while True: body].  Every turn of the two loops below makes a call or
    leaves the loop, so a loop started with more fuel than there are
    replies never runs out of it. *)
Fixpoint while_fuel (fuel : nat) (body : M ctl) : M unit := fun st =>
  match fuel with
  | O => (Stop OutOfFuel, st)
  | S fuel' =>
      match body st with
      | (Ret Continue, st') => while_fuel fuel' body st'
      | (Ret Break, st') => (Ret tt, st')
      | (Raise e, st') => (Raise e, st')
      | (Stop s, st') => (Stop s, st')
      end
  end.

Definition while_true (body : M ctl) : M unit := fun st =>
  while_fuel (S (List.length (pending st))) body st.

Definition is_in (e : Endpoint) : bool :=
  endpoint_direction (bEndpointAddress e) =? ENDPOINT_IN.

Definition is_out (e : Endpoint) : bool :=
  endpoint_direction (bEndpointAddress e) =? ENDPOINT_OUT.

(** The first lines of [accept_data] and of [write]: the interface of the
    active configuration and its first endpoint accepted by [matches]. *)
Definition discover (matches : Endpoint -> bool) : M (option Endpoint) :=
  dev <- self_device ;;
  r <- invoke (GetActiveConfiguration dev) ;;
  cfg <- expect_config r ;;
  i0 <- getitem0 cfg ;;
  let if_num := bInterfaceNumber i0 in
  let intf := find_descriptor cfg (fun i => bInterfaceNumber i =? if_num) in
  match intf with
  | Some i => ret (find_descriptor (endpoints i) matches)
  | None => raise TypeError
  end.

Definition receive_step (ep_in : option Endpoint) : M ctl :=
  try_except
    (ep <- deref ep_in ;;
     r <- invoke (EpRead ep 1 0) ;;
     data <- expect_array r ;;
     b <- getitem0 data ;;
     print (str_N (Byte.to_N b)) ;;
     ret Continue)
    (fun e =>
       match e with
       | USBError _ _ =>
           Some (print "failed to send IN transfer" ;;
                 print (str_exn e) ;;
                 ret Break)
       | KeyboardInterrupt =>
           Some (console_print "Disconnecting device......... " ;;
                 dev <- self_device ;;
                 _ <- invoke (DetachKernelDriver dev 0) ;;
                 ret Continue)
       | _ => None
       end).

Definition accept_data : M unit :=
  console_print "[bold blue]Accepting data..." ;;
  ep_in <- discover is_in ;;
  while_true (receive_step ep_in).

Definition write_step (ep_out : option Endpoint) : M ctl :=
  r <- invoke (ConsoleInput "[bold blue]Write: ") ;;
  message <- expect_line r ;;
  ep <- deref ep_out ;;
  _ <- invoke (EpWrite ep message) ;;
  ret Continue.

Definition write : M unit :=
  ep_out <- discover is_out ;;
  while_true (write_step ep_out).

(** ** Vocabulary of the statements *)

(** The identity strings in the order [send_accessory_parameters] sends
    them, each with its slot. *)
Definition identity : list (Z * string) :=
  [ (0, "dvpashkevich");
    (1, "PyAndroidCompanion");
    (2, "A Python based Android accessory companion");
    (3, "0.1.0");
    (4, "https://github.com/alien-agent/USB-Communicator-Script");
    (5, "0000-0000-0000") ].

Definition identity_lengths : list Z := map (fun p => len (snd p)) identity.

(** The vendor control write that carries one identity string. *)
Definition identity_write (dev : handle) (p : Z * string) : event :=
  Called (CtrlTransfer dev 0x40 52 0 (fst p) (Data (snd p)) (Some 0)).

(** The slots of the identity writes (request 52) of a log. *)
Fixpoint identity_slots (tr : list event) : list Z :=
  match tr with
  | [] => []
  | Called (CtrlTransfer _ _ 52 _ wIndex _ _) :: tr' => wIndex :: identity_slots tr'
  | _ :: tr' => identity_slots tr'
  end.

Definition version_read (dev : handle) : event :=
  Called (CtrlTransfer dev 0xC0 51 0 0 (WLength 2) None).

Definition mode_trigger (dev : handle) : event :=
  Called (CtrlTransfer dev 0x40 53 0 0 (Data "") (Some 0)).

Definition unsupported_protocol (v : Byte.byte) : exn :=
  ValueError ("Protocol version " ++ str_N (Byte.to_N v) ++ " < 2 is not supported")%string.

Definition identity_rejected : exn := ValueError "Received non-valid response".

Definition mode_trigger_failed : exn := ValueError "Failed to trigger accessory mode".

Definition device_lost : exn :=
  ValueError "Device gone missing after accessory mode trigger, please restart".

(** The six [send_string] calls of [send_accessory_parameters] as one
    recursion over the strings. *)
Fixpoint send_all (l : list (Z * string)) : M unit :=
  match l with
  | [] => ret tt
  | (str_id, str_val) :: l' => send_string str_id str_val ;; send_all l'
  end.

(** The first two commands of [prepare_device]: all that runs before the
    mode trigger. *)
Definition before_trigger : list (string * M unit) :=
  [ ("Verifying protocol", set_protocol);
    ("Sending accessory parameters", send_accessory_parameters) ].

(** A relation between the state before and the state after that every
    run of [m] establishes. *)
Definition respects (R : state -> state -> Prop) {A} (m : M A) : Prop :=
  forall st, R st (snd (m st)).

(** [self.device] is not assigned. *)
Definition same_device (st st' : state) : Prop := device st' = device st.

(** The log is only added to. *)
Definition log_extended (st st' : state) : Prop :=
  exists more, trace st' = trace st ++ more.

(** Fewer replies are left. *)
Definition consumed (st st' : state) : Prop :=
  (List.length (pending st') < List.length (pending st))%nat.

(** A turn of the receive loop after which the loop goes on. *)
Inductive turn :=
| Received (b : Byte.byte) (more : list Byte.byte)  (* the read gives data *)
| Interrupted.  (* KeyboardInterrupt in the read, then the detach returns *)

Definition replies_of (t : turn) : list reply :=
  match t with
  | Received b more => [RArray (b :: more)]
  | Interrupted => [RRaise KeyboardInterrupt; RNone]
  end.

Definition events_of (dev : handle) (ep : Endpoint) (t : turn) : list event :=
  match t with
  | Received b _ => [Called (EpRead ep 1 0); Print (str_N (Byte.to_N b))]
  | Interrupted =>
      [Called (EpRead ep 1 0);
       ConsolePrint "Disconnecting device......... ";
       Called (DetachKernelDriver dev 0)]
  end.

(** The bulk transfers of a log. *)
Definition is_transfer (ev : event) : bool :=
  match ev with
  | Called (EpRead _ _ _) | Called (EpWrite _ _) => true
  | _ => false
  end.


(** A turn of the send loop after which the loop goes on: a line from the
    console and the value the endpoint write returns for it. *)
Definition sent_replies (p : string * Z) : list reply :=
  [RLine (fst p); RInt (snd p)].

Definition sent_events (ep : Endpoint) (p : string * Z) : list event :=
  [Called (ConsoleInput "[bold blue]Write: "); Called (EpWrite ep (fst p))].

(** The log of a run of [prepare_device] up to the identity writes, for a
    device that is configured and reports a supported version. *)
Definition checked_log (dev : handle) : list event :=
  [ConsolePrint "Verifying protocol......... ";
   Called (SetConfiguration dev);
   version_read dev;
   ConsolePrint "[bold green]OK";
   ConsolePrint "Sending accessory parameters......... "].

(** ** Device selection, the Arduino path and [main]

    [select_device], [write_arduino] and [main] talk to further
    collaborators: the listing of the bus, the product strings of the
    devices, the prompts for a choice, [input()] and the serial port.  Their
    replies and their log are kept beside the state of the negotiation and
    the data phase, which [main] runs after the selection. *)

Inductive AppMode := Write | Read | WriteArduino.

Definition value (mode : AppMode) : string :=
  match mode with
  | Write => "write"
  | Read => "read"
  | WriteArduino => "write-arduino"
  end.

Inductive host_call :=
| HFindAll                                   (* usb.core.find(find_all=True) *)
| HGetString (dev : handle)                  (* usb.util.get_string(dev, dev.iProduct) *)
| HConsoleInput (prompt : string)            (* self.console.input(prompt) *)
| HInput                                     (* input() *)
| HSerialOpen (port : string) (baudrate : Z) (* serial.Serial(port, baudrate) *)
| HSerialWrite (data : list Byte.byte)       (* ser.write(data) *)
| HSerialClose.                              (* leaving the [with] block *)

Inductive host_event :=
| HCalled (c : host_call)
| HConsolePrint (s : string)
| HSleep (secs : Z).

Inductive host_reply :=
| HNothing                    (* None *)
| HDevices (l : list handle)
| HText (s : string)
| HCount (n : Z)
| HRaise (e : exn).

Record session := mkSession {
  app_state : state;
  host_pending : list host_reply;
  host_trace : list host_event
}.

Definition HostM (A : Type) := session -> outcome A * session.

Definition hret {A} (a : A) : HostM A := fun s => (Ret a, s).

Definition hraise {A} (e : exn) : HostM A := fun s => (Raise e, s).

Definition hhalt {A} (x : stop) : HostM A := fun s => (Stop x, s).

Definition hbind {A B} (m : HostM A) (f : A -> HostM B) : HostM B := fun s =>
  match m s with
  | (Ret a, s') => f a s'
  | (Raise e, s') => (Raise e, s')
  | (Stop x, s') => (Stop x, s')
  end.

Declare Scope host_scope.
Delimit Scope host_scope with host.
Notation "x <- m ;; k" := (hbind m (fun x => k))
  (at level 61, m at next level, right associativity) : host_scope.
Notation "m ;; k" := (hbind m (fun _ => k))
  (at level 61, right associativity) : host_scope.

(** A method of the negotiation or of the data phase, run on the [app]
    part of the session. *)
Definition lift {A} (m : M A) : HostM A := fun s =>
  let r := m (app_state s) in
  (fst r, mkSession (snd r) (host_pending s) (host_trace s)).

Definition host_log (ev : host_event) : HostM unit := fun s =>
  (Ret tt, mkSession (app_state s) (host_pending s) (host_trace s ++ [ev])).

Definition host_invoke (c : host_call) : HostM host_reply := fun s =>
  let tr := host_trace s ++ [HCalled c] in
  match host_pending s with
  | [] => (Stop Blocked, mkSession (app_state s) [] tr)
  | HRaise e :: rest => (Raise e, mkSession (app_state s) rest tr)
  | r :: rest => (Ret r, mkSession (app_state s) rest tr)
  end.

Definition host_print (s : string) : HostM unit := host_log (HConsolePrint s).

(** [list(usb.core.find(find_all=True))] *)
Definition find_all : HostM (list handle) :=
  (r <- host_invoke HFindAll ;;
   match r with
   | HDevices l => hret l
   | _ => hhalt IllShaped
   end)%host.

(** The text of [usb.util.get_string(dev, dev.iProduct)] in an f-string:
    the string, or [None] for a device without a product string. *)
Definition get_string (dev : handle) : HostM string :=
  (r <- host_invoke (HGetString dev) ;;
   match r with
   | HText s => hret s
   | HNothing => hret "None"
   | _ => hhalt IllShaped
   end)%host.

(** [while not lst: lst = list(usb.core.find(find_all=True)); time.sleep(1)] *)
Fixpoint wait_for_devices (fuel : nat) (lst : list handle) : HostM (list handle) :=
  match lst with
  | _ :: _ => hret lst
  | [] =>
      match fuel with
      | O => hhalt OutOfFuel
      | S fuel' =>
          (found <- find_all ;;
           host_log (HSleep 1) ;;
           wait_for_devices fuel' found)%host
      end
  end.

(** [for i, dev in enumerate(lst): self.console.print(...)], from [i] on. *)
Fixpoint list_devices (i : Z) (lst : list handle) : HostM unit :=
  match lst with
  | [] => hret tt
  | dev :: rest =>
      (name <- get_string dev ;;
       host_print ("  [bold green][" ++ str_Z i ++ "] " ++ name)%string ;;
       list_devices (i + 1) rest)%host
  end.

(** [lst[i]] for a Python int [i]: a negative index counts from the end. *)
Definition getitem {A} (lst : list A) (i : Z) : HostM A :=
  let n := Z.of_nat (List.length lst) in
  let j := if i <? 0 then i + n else i in
  if (0 <=? j) && (j <? n)
  then match nth_error lst (Z.to_nat j) with
       | Some x => hret x
       | None => hraise IndexError
       end
  else hraise IndexError.

(** The second half of [select_device], from [if len(lst) == 1:] on.
    [int] is Python's [int] on a string: the integer, or the exception it
    raises. *)
Definition choose_device (int : string -> Z + exn) (lst : list handle) : HostM unit :=
  (dev <- match lst with
          | [dev] =>
              name <- get_string dev ;;
              host_print ("[bold blue]Single device is available, using [bold green]"
                          ++ name)%string ;;
              hret dev
          | _ =>
              host_print "[bold blue]Available devices:" ;;
              list_devices 0 lst ;;
              r <- host_invoke (HConsoleInput "[bold blue]Select device index: ") ;;
              ind <- match r with
                     | HText s => hret s
                     | _ => hhalt IllShaped
                     end ;;
              i <- match int ind with
                   | inl i => hret i
                   | inr e => hraise e
                   end ;;
              getitem lst i
          end ;;
   lift (set_device dev))%host.

Definition select_device (int : string -> Z + exn) : HostM unit :=
  (lst <- find_all ;;
   lst <- match lst with
          | [] =>
              host_print "[bold blue]Waiting for devices..." ;;
              fun s => wait_for_devices (S (List.length (host_pending s))) lst s
          | _ :: _ => hret lst
          end ;;
   choose_device int lst)%host.

(** [data.encode()] *)
Definition encode (data : string) : list Byte.byte := list_byte_of_string data.

(** [with serial.Serial(port, baudrate) as ser: body]: the port is closed
    when the body is left, also by an exception, which is raised again
    after the close. *)
Definition with_serial {A} (port : string) (baudrate : Z) (body : HostM A) : HostM A :=
  (_ <- host_invoke (HSerialOpen port baudrate) ;;
   fun s =>
     match body s with
     | (Ret a, s') => (_ <- host_invoke HSerialClose ;; hret a) s'
     | (Raise e, s') => (_ <- host_invoke HSerialClose ;; hraise e) s'
     | (Stop x, s') => (Stop x, s')
     end)%host.

Definition send_data (data : string) : HostM unit :=
  with_serial "/dev/tty.usbserial-A50285BI" 9600
    (_ <- host_invoke (HSerialWrite (encode data)) ;; hret tt)%host.

Fixpoint host_while_fuel (fuel : nat) (body : HostM ctl) : HostM unit := fun s =>
  match fuel with
  | O => (Stop OutOfFuel, s)
  | S fuel' =>
      match body s with
      | (Ret Continue, s') => host_while_fuel fuel' body s'
      | (Ret Break, s') => (Ret tt, s')
      | (Raise e, s') => (Raise e, s')
      | (Stop x, s') => (Stop x, s')
      end
  end.

Definition host_while_true (body : HostM ctl) : HostM unit := fun s =>
  host_while_fuel (S (List.length (host_pending s))) body s.

Definition arduino_step : HostM ctl :=
  (r <- host_invoke HInput ;;
   user_input <- match r with
                 | HText s => hret s
                 | _ => hhalt IllShaped
                 end ;;
   (if (user_input =? "0")%string || (user_input =? "1")%string
    then send_data user_input
    else hret tt) ;;
   hret Continue)%host.

Definition write_arduino : HostM unit := host_while_true arduino_step.

(** [app = App()]: a fresh object, no device selected. *)
Definition new_app : HostM unit := fun s =>
  (Ret tt,
   mkSession (mkState None (pending (app_state s)) (trace (app_state s)))
     (host_pending s) (host_trace s)).

(** [main(mode)].  On the command line the mode is one of the [value]s;
    without an option it is [Read]. *)
Definition main (int : string -> Z + exn) (mode : AppMode) : HostM unit :=
  (new_app ;;
   match mode with
   | WriteArduino => write_arduino
   | _ =>
       select_device int ;;
       lift prepare_device ;;
       match mode with
       | Write => lift write
       | _ => lift accept_data
       end
   end)%host.

(** What [write_arduino] is given and does for one line of input, when the
    serial port works. *)
Definition is_command (line : string) : bool :=
  (line =? "0")%string || (line =? "1")%string.

Definition arduino_replies (line : string) : list host_reply :=
  HText line ::
  (if is_command line then [HNothing; HCount 1; HNothing] else []).

Definition arduino_events (line : string) : list host_event :=
  HCalled HInput ::
  (if is_command line
   then [HCalled (HSerialOpen "/dev/tty.usbserial-A50285BI" 9600);
         HCalled (HSerialWrite (encode line));
         HCalled HSerialClose]
   else []).

(** The empty scans of the bus while [select_device] waits. *)
Definition waiting_replies (k : nat) : list host_reply := repeat (HDevices []) k.

Definition waiting_events (k : nat) : list host_event :=
  List.concat (repeat [HCalled HFindAll; HSleep 1] k).


(** A computation that leaves the negotiation state alone. *)
Definition keeps_app {A} (m : HostM A) : Prop :=
  forall s, app_state (snd (m s)) = app_state s.

(** * Proofs *)

Ltac flatten_trace :=
  cbn [app]; repeat (rewrite <- app_assoc; cbn [app]); rewrite ?app_nil_r.

(** ** Configure *)

(** C1: every [USBError] of [set_configuration] leaves [set_protocol]
    again, errno 16 ("already configured") like any other: the version
    read is not made. *)
Theorem set_protocol_configure_error_raised :
  forall dev errno strerror rest tr,
    set_protocol (mkState (Some dev) (RRaise (USBError errno strerror) :: rest) tr)
    = (Raise (USBError errno strerror),
       mkState (Some dev) rest (tr ++ [Called (SetConfiguration dev)])).
Proof.
  intros.
  cbv [set_protocol bind try_except try_except_else self_device invoke
       device pending trace].
  destruct (errno_eq errno 16); reflexivity.
Qed.

(** ** CheckProtocol *)

Lemma set_protocol_version :
  forall dev configured v more rest tr,
    (forall e, configured <> RRaise e) ->
    set_protocol (mkState (Some dev) (configured :: RArray (v :: more) :: rest) tr)
    = (if (Byte.to_N v <? 2)%N then Raise (unsupported_protocol v) else Ret tt,
       mkState (Some dev) rest (tr ++ [Called (SetConfiguration dev); version_read dev])).
Proof.
  intros dev configured v more rest tr Hc.
  destruct configured; try (exfalso; eapply Hc; reflexivity);
    cbn -[N.ltb Byte.to_N str_N String.append];
    destruct (Byte.to_N v <? 2)%N; cbn; flatten_trace; reflexivity.
Qed.

(** One command of [prepare_device], by the outcome of the command. *)
Lemma run_commands_ok :
  forall name command rest st st',
    command (snd (console_print (name ++ "......... ")%string st)) = (Ret tt, st') ->
    run_commands ((name, command) :: rest) st
    = run_commands rest (snd (console_print "[bold green]OK" st')).
Proof.
  intros name command rest st st' H.
  cbn [run_commands]. unfold bind at 1. cbn [console_print log].
  unfold bind at 1, try_except_else.
  cbn [console_print log snd] in H. rewrite H. reflexivity.
Qed.

Lemma run_commands_fail :
  forall name command rest st st' e,
    command (snd (console_print (name ++ "......... ")%string st)) = (Raise e, st') ->
    run_commands ((name, command) :: rest) st
    = (Raise (SystemExit 1),
       mkState (device st') (pending st')
         (trace st' ++ [ConsolePrint "[bold red]FAIL"; ConsolePrintException e])).
Proof.
  intros name command rest st st' e H.
  cbn [run_commands]. unfold bind at 1. cbn [console_print log].
  unfold bind at 1, try_except_else.
  cbn [console_print log snd] in H. rewrite H.
  cbn. flatten_trace. reflexivity.
Qed.

Lemma run_commands_stop :
  forall name command rest st st' s,
    command (snd (console_print (name ++ "......... ")%string st)) = (Stop s, st') ->
    run_commands ((name, command) :: rest) st = (Stop s, st').
Proof.
  intros name command rest st st' s H.
  cbn [run_commands]. unfold bind at 1. cbn [console_print log].
  unfold bind at 1, try_except_else.
  cbn [console_print log snd] in H. rewrite H. reflexivity.
Qed.

(** C4: with the device configured and a version read that gives [v] as
    its low byte, [set_protocol] returns iff [2 <= v].  Below 2 it raises
    the [ValueError] that names [v], [prepare_device] reports it and exits
    before any identity string is written; from 2 on [prepare_device] goes
    on with the next two commands. *)
Theorem set_protocol_version_check :
  forall dev v more rest tr,
    let st := mkState (Some dev) (RNone :: RArray (v :: more) :: rest) tr in
    let checked := tr ++ [ConsolePrint "Verifying protocol......... ";
                          Called (SetConfiguration dev); version_read dev] in
    (fst (set_protocol st) = Ret tt <-> (2 <= Byte.to_N v)%N) /\
    ((Byte.to_N v < 2)%N ->
       fst (set_protocol st) = Raise (unsupported_protocol v) /\
       prepare_device st
       = (Raise (SystemExit 1),
          mkState (Some dev) rest
            (checked ++ [ConsolePrint "[bold red]FAIL";
                         ConsolePrintException (unsupported_protocol v)])) /\
       identity_slots (trace (snd (prepare_device st))) = identity_slots tr) /\
    ((2 <= Byte.to_N v)%N ->
       prepare_device st
       = run_commands
           [ ("Sending accessory parameters", send_accessory_parameters);
             ("Triggering accessory mode", set_accessory_mode) ]
           (mkState (Some dev) rest (checked ++ [ConsolePrint "[bold green]OK"]))).
Proof.
  intros dev v more rest tr st checked.
  assert (Hnr : forall e, RNone <> RRaise e) by discriminate.
  pose proof (set_protocol_version dev RNone v more rest tr Hnr) as Hsp.
  pose proof (set_protocol_version dev RNone v more rest
                (tr ++ [ConsolePrint "Verifying protocol......... "]) Hnr) as Hpd.
  fold st in Hsp.
  split; [| split].
  - rewrite Hsp. cbn [fst].
    destruct (N.ltb_spec (Byte.to_N v) 2); split; intro; try lia; try discriminate; reflexivity.
  - intro Hlt. apply N.ltb_lt in Hlt. rewrite Hlt in Hsp, Hpd.
    assert (Hrun : prepare_device st
       = (Raise (SystemExit 1),
          mkState (Some dev) rest
            (checked ++ [ConsolePrint "[bold red]FAIL";
                         ConsolePrintException (unsupported_protocol v)]))).
    { unfold prepare_device.
      erewrite run_commands_fail by exact Hpd.
      cbn [device pending trace]. subst checked. flatten_trace. reflexivity. }
    split; [rewrite Hsp; reflexivity | split; [exact Hrun |]].
    rewrite Hrun. cbn [snd trace]. subst checked.
    clear. induction tr as [| ev tr IH]; [reflexivity |].
    cbn [app identity_slots]. rewrite IH. reflexivity.
  - intro Hge. apply N.ltb_ge in Hge. rewrite Hge in Hpd.
    unfold prepare_device.
    erewrite run_commands_ok by exact Hpd.
    cbn [console_print log snd device pending trace]. subst checked.
    flatten_trace. reflexivity.
Qed.

Lemma set_protocol_version_check_witness :
  fst (set_protocol (mkState (Some 0%nat) [RNone; RArray [Byte.x01; Byte.x00]] []))
  = Raise (ValueError "Protocol version 1 < 2 is not supported") /\
  fst (set_protocol (mkState (Some 0%nat) [RNone; RArray [Byte.x02; Byte.x00]] []))
  = Ret tt.
Proof.
  split.
  - apply (set_protocol_version_check 0%nat Byte.x01 [Byte.x00] [] []).
    vm_compute. reflexivity.
  - apply (set_protocol_version_check 0%nat Byte.x02 [Byte.x00] [] []).
    vm_compute. discriminate.
Defined.

(** ** SendIdentity *)

Lemma send_accessory_parameters_send_all :
  forall st, send_accessory_parameters st = send_all identity st.
Proof. reflexivity. Qed.

(** One [send_string] whose write is acknowledged with the count [a]. *)
Lemma send_all_step :
  forall p l dev a script tr,
    send_all (p :: l) (mkState (Some dev) (RInt a :: script) tr)
    = if a =? len (snd p)
      then send_all l (mkState (Some dev) script (tr ++ [identity_write dev p]))
      else (Raise identity_rejected,
            mkState (Some dev) script (tr ++ [identity_write dev p])).
Proof.
  intros [str_id str_val] l dev a script tr.
  change (send_all ((str_id, str_val) :: l))
    with (send_string str_id str_val ;; send_all l).
  cbv [bind send_string self_device invoke ne_int device pending trace raise ret
       snd identity_write fst].
  destruct (a =? len str_val); reflexivity.
Qed.

Lemma send_all_matching :
  forall l dev rest tr,
    send_all l (mkState (Some dev)
                  (map RInt (map (fun p => len (snd p)) l) ++ rest) tr)
    = (Ret tt, mkState (Some dev) rest (tr ++ map (identity_write dev) l)).
Proof.
  induction l as [| p l IH]; intros dev rest tr.
  - cbn. rewrite app_nil_r. reflexivity.
  - cbn [map app]. rewrite send_all_step, Z.eqb_refl, IH.
    flatten_trace. reflexivity.
Qed.

Lemma send_all_first_mismatch :
  forall i l acks dev tr,
    (i < List.length l)%nat -> (i < List.length acks)%nat ->
    firstn i acks = firstn i (map (fun p => len (snd p)) l) ->
    nth i acks 0 <> nth i (map (fun p => len (snd p)) l) 0 ->
    send_all l (mkState (Some dev) (map RInt acks) tr)
    = (Raise identity_rejected,
       mkState (Some dev) (map RInt (skipn (S i) acks))
         (tr ++ map (identity_write dev) (firstn (S i) l))).
Proof.
  induction i as [| i IH]; intros l acks dev tr Hl Ha Hpre Hne;
    destruct l as [| p l]; cbn [List.length] in Hl; try lia;
    destruct acks as [| a acks]; cbn [List.length] in Ha; try lia;
    cbn [map firstn nth skipn] in *; rewrite send_all_step.
  - destruct (Z.eqb_spec a (len (snd p))); [contradiction | reflexivity].
  - injection Hpre as Ha0 Hpre. subst a. rewrite Z.eqb_refl.
    rewrite IH by (assumption || lia). flatten_trace. reflexivity.
Qed.

Lemma send_all_returns_iff :
  forall l acks dev tr,
    List.length acks = List.length l ->
    fst (send_all l (mkState (Some dev) (map RInt acks) tr)) = Ret tt
    <-> acks = map (fun p => len (snd p)) l.
Proof.
  induction l as [| p l IH]; intros acks dev tr Hlen;
    destruct acks as [| a acks]; try discriminate Hlen.
  - cbn. tauto.
  - cbn [map]. rewrite send_all_step.
    destruct (Z.eqb_spec a (len (snd p))) as [-> | Hne].
    + rewrite IH by (cbn in Hlen; lia).
      split; [intros -> | intro H; injection H]; auto.
    + cbn. split; [discriminate | intro H; injection H; intros; contradiction].
Qed.

Lemma send_string_log :
  forall str_id str_val dev script tr,
    let r := send_string str_id str_val (mkState (Some dev) script tr) in
    trace (snd r) = tr ++ [identity_write dev (str_id, str_val)] /\
    device (snd r) = Some dev.
Proof.
  intros str_id str_val dev script tr.
  cbv [send_string bind self_device invoke device pending trace identity_write
       fst snd].
  destruct script as [| r script]; [split; reflexivity |].
  destruct r; cbn -[len]; try (split; reflexivity);
    destruct (n =? len str_val); split; reflexivity.
Qed.

(** Whatever the device answers, the log of the step is a run of identity
    writes from slot 0 upwards. *)
Lemma send_all_trace :
  forall l dev script tr,
    exists k, (k <= List.length l)%nat /\
      trace (snd (send_all l (mkState (Some dev) script tr)))
      = tr ++ map (identity_write dev) (firstn k l).
Proof.
  induction l as [| [str_id str_val] l IH]; intros dev script tr.
  - exists 0%nat. cbn. rewrite app_nil_r. auto.
  - change (send_all ((str_id, str_val) :: l))
      with (send_string str_id str_val ;; send_all l).
    unfold bind at 1.
    destruct (send_string_log str_id str_val dev script tr) as [Ht Hd].
    destruct (send_string str_id str_val (mkState (Some dev) script tr))
      as [o [d1 p1 t1]].
    cbn [snd trace device] in Ht, Hd. subst d1 t1.
    destruct o as [[] | e | s].
    + destruct (IH dev p1 (tr ++ [identity_write dev (str_id, str_val)]))
        as (k & Hk & Hk').
      exists (S k). cbn [List.length firstn map]. split; [lia |].
      rewrite Hk'. flatten_trace. reflexivity.
    + exists 1%nat. cbn [List.length firstn map snd trace]. split; [lia | reflexivity].
    + exists 1%nat. cbn [List.length firstn map snd trace]. split; [lia | reflexivity].
Qed.

(** C3 as the code has it: the step writes six identity strings, slots 0
    to 5 in this order (manufacturer, model, description, version, URI,
    serial), each by a vendor control write (0x40) with request 52; and no
    run of the step writes anything but an initial part of these. *)
Theorem send_accessory_parameters_six_strings :
  forall dev script rest tr,
    map fst identity = [0; 1; 2; 3; 4; 5] /\
    send_accessory_parameters
      (mkState (Some dev) (map RInt identity_lengths ++ rest) tr)
    = (Ret tt, mkState (Some dev) rest (tr ++ map (identity_write dev) identity)) /\
    exists k, (k <= 6)%nat /\
      trace (snd (send_accessory_parameters (mkState (Some dev) script tr)))
      = tr ++ map (identity_write dev) (firstn k identity).
Proof.
  intros dev script rest tr. split; [reflexivity | split].
  - rewrite send_accessory_parameters_send_all. apply send_all_matching.
  - rewrite send_accessory_parameters_send_all.
    apply (send_all_trace identity dev script tr).
Qed.

(** C3 as stated fails: when every string is acknowledged the step also
    writes slot 5, the serial. *)
Lemma send_accessory_parameters_writes_slot_5 :
  identity_slots
    (trace (snd (send_accessory_parameters
                   (mkState (Some 0%nat)
                      [RInt 12; RInt 18; RInt 42; RInt 5; RInt 54; RInt 14] []))))
  = [0; 1; 2; 3; 4; 5].
Proof. vm_compute. reflexivity. Qed.

(** C5: when the device answers every write with a count, the step returns
    iff every count is the List.length of the string sent; when the count for
    the string at index [i] is the first that differs, the step raises,
    the writes made are those for the indices up to [i], and the counts
    after [i] are not asked for. *)
Theorem send_accessory_parameters_acknowledged :
  forall dev tr acks,
    (List.length acks = 6%nat ->
       (fst (send_accessory_parameters (mkState (Some dev) (map RInt acks) tr)) = Ret tt
        <-> acks = identity_lengths)) /\
    (forall i,
       (i < 6)%nat -> (i < List.length acks)%nat ->
       firstn i acks = firstn i identity_lengths ->
       nth i acks 0 <> nth i identity_lengths 0 ->
       send_accessory_parameters (mkState (Some dev) (map RInt acks) tr)
       = (Raise identity_rejected,
          mkState (Some dev) (map RInt (skipn (S i) acks))
            (tr ++ map (identity_write dev) (firstn (S i) identity)))).
Proof.
  intros dev tr acks. split.
  - intro Hlen. rewrite send_accessory_parameters_send_all.
    apply send_all_returns_iff. exact Hlen.
  - intros i Hi Ha Hpre Hne. rewrite send_accessory_parameters_send_all.
    apply send_all_first_mismatch; assumption.
Qed.

Lemma send_accessory_parameters_acknowledged_witness :
  send_accessory_parameters
    (mkState (Some 0%nat) (map RInt [12; 18; 41; 5; 54; 14]) [])
  = (Raise identity_rejected,
     mkState (Some 0%nat) (map RInt [5; 54; 14])
       (map (identity_write 0%nat) (firstn 3 identity))) /\
  (fst (send_accessory_parameters
          (mkState (Some 0%nat) (map RInt [12; 18; 42; 5; 54; 14]) [])) = Ret tt).
Proof.
  split.
  - apply (proj2 (send_accessory_parameters_acknowledged 0%nat []
                    [12; 18; 41; 5; 54; 14]) 2%nat).
    + lia.
    + cbn. lia.
    + reflexivity.
    + vm_compute. discriminate.
  - apply (proj1 (send_accessory_parameters_acknowledged 0%nat []
                    [12; 18; 42; 5; 54; 14])).
    + reflexivity.
    + reflexivity.
Defined.

(** ** TriggerAccessoryMode *)

(** C9: [set_accessory_mode] fails at the trigger, raising "Failed to
    trigger accessory mode" with nothing done after the control write, iff
    the count acknowledged for the trigger is not zero; with a zero count
    the trigger is followed by the one-second sleep and the scan of the
    bus. *)
Theorem set_accessory_mode_trigger :
  forall dev n rest tr,
    let st := mkState (Some dev) (RInt n :: rest) tr in
    (set_accessory_mode st
     = (Raise mode_trigger_failed, mkState (Some dev) rest (tr ++ [mode_trigger dev]))
     <-> n <> 0) /\
    (n = 0 ->
       trace (snd (set_accessory_mode st))
       = tr ++ [mode_trigger dev; Sleep 1; Called Find]).
Proof.
  intros dev n rest tr st. subst st.
  assert (Hgo : n = 0 ->
            trace (snd (set_accessory_mode (mkState (Some dev) (RInt n :: rest) tr)))
            = tr ++ [mode_trigger dev; Sleep 1; Called Find]).
  { intros ->. destruct rest as [| found rest].
    - cbn. flatten_trace. reflexivity.
    - destruct found as [| data | k | [d |] | cfg | s | e]; cbn;
        flatten_trace; try reflexivity.
      + destruct data; reflexivity.
      + destruct (k =? 0); reflexivity.
      + destruct s; reflexivity. }
  split; [split |].
  - intros H Hn. specialize (Hgo Hn). rewrite H in Hgo. cbn [snd trace] in Hgo.
    apply app_inv_head in Hgo. discriminate Hgo.
  - intro Hn.
    cbv [set_accessory_mode bind self_device invoke device pending trace truthy].
    destruct (Z.eqb_spec n 0); [contradiction | reflexivity].
  - exact Hgo.
Qed.

Lemma set_accessory_mode_trigger_witness :
  set_accessory_mode (mkState (Some 0%nat) [RInt 1; RDevice (Some 1%nat)] [])
  = (Raise mode_trigger_failed,
     mkState (Some 0%nat) [RDevice (Some 1%nat)] [mode_trigger 0%nat]) /\
  trace (snd (set_accessory_mode (mkState (Some 0%nat) [RInt 0; RDevice (Some 1%nat)] [])))
  = [mode_trigger 0%nat; Sleep 1; Called Find].
Proof.
  split.
  - apply (proj1 (set_accessory_mode_trigger 0%nat 1 [RDevice (Some 1%nat)] [])). lia.
  - apply (proj2 (set_accessory_mode_trigger 0%nat 0 [RDevice (Some 1%nat)] [])).
    reflexivity.
Defined.

(** C6 as the code has it: after an acknowledged trigger the bus is scanned
    once; when nothing is found the step raises "Device gone missing ..."
    and [device] is kept; when a device is found it becomes the new
    [device], whether or not it is the one held before. *)
Theorem set_accessory_mode_rescan :
  forall dev found rest tr,
    let r := set_accessory_mode
               (mkState (Some dev) (RInt 0 :: RDevice found :: rest) tr) in
    trace (snd r) = tr ++ [mode_trigger dev; Sleep 1; Called Find] /\
    pending (snd r) = rest /\
    match found with
    | None => fst r = Raise device_lost /\ device (snd r) = Some dev
    | Some dev' => fst r = Ret tt /\ device (snd r) = Some dev'
    end.
Proof.
  intros dev found rest tr r. subst r.
  destruct found as [dev' |]; cbn; flatten_trace; repeat split; reflexivity.
Qed.

(** C6 as stated fails: a scan that finds the device still at its old
    place makes it the new [device], equal to the one held before the
    trigger. *)
Lemma set_accessory_mode_same_handle :
  set_accessory_mode (mkState (Some 3%nat) [RInt 0; RDevice (Some 3%nat)] [])
  = (Ret tt, mkState (Some 3%nat) [] [mode_trigger 3%nat; Sleep 1; Called Find]).
Proof. reflexivity. Qed.

(** ** The [device] field *)

Section Respects.
Variable R : state -> state -> Prop.
Hypothesis R_refl : forall st, R st st.
Hypothesis R_trans : forall st1 st2 st3, R st1 st2 -> R st2 st3 -> R st1 st3.
Hypothesis R_log : forall ev, respects R (log ev).
Hypothesis R_invoke : forall c, respects R (invoke c).

Lemma respects_ret : forall A (a : A), respects R (ret a).
Proof. intros A a st. apply R_refl. Qed.

Lemma respects_raise : forall A e, respects R (@raise A e).
Proof. intros A e st. apply R_refl. Qed.

Lemma respects_halt : forall A s, respects R (@halt A s).
Proof. intros A s st. apply R_refl. Qed.

Lemma respects_self_device : respects R self_device.
Proof. intros st. unfold self_device. destruct (device st); apply R_refl. Qed.

Lemma respects_bind :
  forall A B (m : M A) (f : A -> M B),
    respects R m -> (forall a, respects R (f a)) -> respects R (bind m f).
Proof.
  intros A B m f Hm Hf st. unfold bind.
  specialize (Hm st). destruct (m st) as [[a | e | s] st']; cbn [snd] in *;
    try assumption.
  eapply R_trans; [eassumption | apply Hf].
Qed.

Lemma respects_try_except_else :
  forall A B (body : M A) handler (orelse : A -> M B),
    respects R body ->
    (forall e h, handler e = Some h -> respects R h) ->
    (forall a, respects R (orelse a)) ->
    respects R (try_except_else body handler orelse).
Proof.
  intros A B body handler orelse Hb Hh Ho st. unfold try_except_else.
  specialize (Hb st). destruct (body st) as [[a | e | s] st']; cbn [snd] in *;
    try assumption.
  - eapply R_trans; [eassumption | apply Ho].
  - destruct (handler e) as [h |] eqn:E; [| assumption].
    eapply R_trans; [eassumption | apply (Hh e h E)].
Qed.

Lemma respects_if :
  forall A (c : bool) (m1 m2 : M A),
    respects R m1 -> respects R m2 -> respects R (if c then m1 else m2).
Proof. intros A [] m1 m2 H1 H2; assumption. Qed.

Lemma respects_while_fuel :
  forall body, respects R body -> forall fuel, respects R (while_fuel fuel body).
Proof.
  intros body Hb fuel. induction fuel as [| fuel IH]; intro st; cbn [while_fuel].
  - apply R_refl.
  - specialize (Hb st). destruct (body st) as [[[] | e | s] st']; cbn [snd] in *;
      try assumption.
    eapply R_trans; [eassumption | apply IH].
Qed.

Lemma respects_set_protocol : respects R set_protocol.
Proof.
  unfold set_protocol, try_except.
  apply respects_bind; [| intros _].
  - apply respects_try_except_else.
    + repeat (apply respects_bind; [| intro]);
        auto using respects_self_device, respects_ret.
    + intros e h He. destruct e; try discriminate He.
      injection He as <-. unfold when, pass.
      apply respects_bind; [| intro; apply respects_raise].
      apply respects_if; apply respects_ret.
    + intro. apply respects_ret.
  - apply respects_bind; [apply respects_self_device | intro dev].
    apply respects_bind; [apply R_invoke | intro r].
    apply respects_bind.
    { unfold expect_array. destruct r; auto using respects_ret, respects_halt. }
    intro data. apply respects_bind.
    { unfold getitem0. destruct data; auto using respects_ret, respects_raise. }
    intro protocol. apply respects_if; auto using respects_ret, respects_raise.
Qed.

Lemma respects_send_string :
  forall str_id str_val, respects R (send_string str_id str_val).
Proof.
  intros. unfold send_string.
  apply respects_bind; [apply respects_self_device | intro dev].
  apply respects_bind; [apply R_invoke | intro r].
  apply respects_if; auto using respects_ret, respects_raise.
Qed.

Lemma respects_send_accessory_parameters : respects R send_accessory_parameters.
Proof.
  unfold send_accessory_parameters.
  repeat (apply respects_bind; [apply respects_send_string | intros _]).
  apply respects_ret.
Qed.

Lemma respects_run_commands :
  forall commands,
    Forall (fun c => respects R (snd c)) commands ->
    respects R (run_commands commands).
Proof.
  induction 1 as [| [name command] rest Hc _ IH]; cbn [run_commands].
  - apply respects_ret.
  - apply respects_bind; [apply R_log | intros _].
    apply respects_bind; [| intros _; exact IH].
    apply respects_try_except_else.
    + exact Hc.
    + intros e h He. injection He as <-.
      unfold sys_exit, console_print, console_print_exception.
      repeat (apply respects_bind; [apply R_log | intros _]).
      apply respects_raise.
    + intro. apply R_log.
Qed.

Lemma respects_receive_step : forall ep_in, respects R (receive_step ep_in).
Proof.
  intro ep_in. unfold receive_step, try_except.
  apply respects_try_except_else.
  - apply respects_bind.
    { unfold deref. destruct ep_in; auto using respects_ret, respects_raise. }
    intro ep. apply respects_bind; [apply R_invoke | intro r].
    apply respects_bind.
    { unfold expect_array. destruct r; auto using respects_ret, respects_halt. }
    intro data. apply respects_bind.
    { unfold getitem0. destruct data; auto using respects_ret, respects_raise. }
    intro b. apply respects_bind; [apply R_log | intros _; apply respects_ret].
  - intros e h He. destruct e; try discriminate He; injection He as <-.
    + unfold print. repeat (apply respects_bind; [apply R_log | intros _]).
      apply respects_ret.
    + apply respects_bind; [apply R_log | intros _].
      apply respects_bind; [apply respects_self_device | intro dev].
      apply respects_bind; [apply R_invoke | intros _; apply respects_ret].
  - intro. apply respects_ret.
Qed.
End Respects.

Lemma same_device_log : forall ev, respects same_device (log ev).
Proof. intros ev st. reflexivity. Qed.

Lemma same_device_invoke : forall c, respects same_device (invoke c).
Proof.
  intros c st. unfold invoke, same_device.
  destruct (pending st) as [| r rest]; [reflexivity |]. destruct r; reflexivity.
Qed.

Lemma same_device_trans :
  forall st1 st2 st3, same_device st1 st2 -> same_device st2 st3 -> same_device st1 st3.
Proof. unfold same_device. intros st1 st2 st3 H12 H23. congruence. Qed.

Lemma log_extended_refl : forall st, log_extended st st.
Proof. intro st. exists []. symmetry. apply app_nil_r. Qed.

Lemma log_extended_trans :
  forall st1 st2 st3, log_extended st1 st2 -> log_extended st2 st3 -> log_extended st1 st3.
Proof.
  intros st1 st2 st3 [m1 H1] [m2 H2]. exists (m1 ++ m2).
  rewrite H2, H1. symmetry. apply app_assoc.
Qed.

Lemma log_extended_log : forall ev, respects log_extended (log ev).
Proof. intros ev st. exists [ev]. reflexivity. Qed.

Lemma log_extended_invoke : forall c, respects log_extended (invoke c).
Proof.
  intros c st. exists [Called c]. unfold invoke.
  destruct (pending st) as [| r rest]; [reflexivity |]. destruct r; reflexivity.
Qed.

Lemma keeps_device_run_commands :
  forall commands,
    Forall (fun c => respects same_device (snd c)) commands ->
    respects same_device (run_commands commands).
Proof.
  apply respects_run_commands.
  - reflexivity.
  - exact same_device_trans.
  - exact same_device_log.
Qed.

Lemma run_commands_app :
  forall l1 l2 st,
    run_commands (l1 ++ l2) st = (run_commands l1 ;; run_commands l2) st.
Proof.
  induction l1 as [| [name command] l1 IH]; intros l2 st.
  - reflexivity.
  - cbn [app run_commands]. unfold bind.
    destruct (console_print _ st) as [[[] | e | s] st1]; try reflexivity.
    destruct (try_except_else command _ _ st1) as [[[] | e | s] st2]; try reflexivity.
    rewrite IH. reflexivity.
Qed.

(** C10: [set_protocol] and [send_accessory_parameters] leave [device] as
    it is in every run, returning or not; [set_accessory_mode] can assign
    it; and when [prepare_device] does not get through its first two
    commands it ends there, with [device] still the handle it started
    with. *)
Theorem negotiation_keeps_device :
  forall st,
    device (snd (set_protocol st)) = device st /\
    device (snd (send_accessory_parameters st)) = device st /\
    (fst (run_commands before_trigger st) <> Ret tt ->
       prepare_device st = run_commands before_trigger st /\
       device (snd (prepare_device st)) = device st) /\
    (exists st0, device (snd (set_accessory_mode st0)) <> device st0).
Proof.
  intro st.
  assert (Hsp : respects same_device set_protocol)
    by (apply respects_set_protocol;
        [reflexivity | exact same_device_trans | exact same_device_invoke]).
  assert (Hsa : respects same_device send_accessory_parameters)
    by (apply respects_send_accessory_parameters;
        [reflexivity | exact same_device_trans | exact same_device_invoke]).
  split; [apply Hsp |].
  split; [apply Hsa |].
  split.
  - intro Hfail.
    assert (Hpre : prepare_device st = run_commands before_trigger st).
    { change prepare_device
        with (run_commands
                (before_trigger ++ [("Triggering accessory mode", set_accessory_mode)])).
      rewrite run_commands_app. unfold bind.
      destruct (run_commands before_trigger st) as [[[] | e | s] st'];
        [exfalso; apply Hfail |..]; reflexivity. }
    split; [exact Hpre |].
    rewrite Hpre. apply keeps_device_run_commands.
    repeat constructor; assumption.
  - exists (mkState (Some 0%nat) [RInt 0; RDevice (Some 1%nat)] []).
    cbn. discriminate.
Qed.

Lemma negotiation_keeps_device_witness :
  prepare_device (mkState (Some 7%nat) [RNone; RArray [Byte.x01; Byte.x00]] [])
  = run_commands before_trigger
      (mkState (Some 7%nat) [RNone; RArray [Byte.x01; Byte.x00]] []) /\
  device (snd (prepare_device
                 (mkState (Some 7%nat) [RNone; RArray [Byte.x01; Byte.x00]] [])))
  = Some 7%nat.
Proof.
  apply (negotiation_keeps_device
           (mkState (Some 7%nat) [RNone; RArray [Byte.x01; Byte.x00]] [])).
  vm_compute. discriminate.
Defined.

(** ** Endpoint discovery *)

Lemma land_bit7 :
  forall a, Z.land a 0x80 = if Z.testbit a 7 then 0x80 else 0.
Proof.
  intro a. apply Z.bits_inj'. intros n Hn.
  rewrite Z.land_spec. change 0x80 with (2 ^ 7).
  destruct (Z.testbit a 7) eqn:E.
  - rewrite Z.pow2_bits_eqb by lia.
    destruct (Z.eqb_spec 7 n) as [<- | Hne]; [rewrite E; reflexivity |].
    apply andb_false_r.
  - rewrite Z.pow2_bits_eqb by lia. rewrite Z.bits_0.
    destruct (Z.eqb_spec 7 n) as [<- | Hne]; [rewrite E; reflexivity |].
    apply andb_false_r.
Qed.

(** The direction tests read bit 7 of the address and exclude each other. *)
Lemma is_in_bit7 : forall e, is_in e = Z.testbit (bEndpointAddress e) 7.
Proof.
  intro e. unfold is_in, endpoint_direction, ENDPOINT_IN. rewrite land_bit7.
  destruct (Z.testbit (bEndpointAddress e) 7); reflexivity.
Qed.

Lemma is_out_bit7 : forall e, is_out e = negb (Z.testbit (bEndpointAddress e) 7).
Proof.
  intro e. unfold is_out, endpoint_direction, ENDPOINT_OUT. rewrite land_bit7.
  destruct (Z.testbit (bEndpointAddress e) 7); reflexivity.
Qed.

Lemma find_descriptor_some :
  forall D (desc : list D) matches d,
    find_descriptor desc matches = Some d -> In d desc /\ matches d = true.
Proof. intros D desc matches d H. apply find_some in H. exact H. Qed.

Lemma find_descriptor_none :
  forall D (desc : list D) matches,
    find_descriptor desc matches = None <-> (forall d, In d desc -> matches d = false).
Proof.
  intros D desc matches. split.
  - intros H d Hd. exact (find_none _ _ H d Hd).
  - induction desc as [| d desc IH]; intro H; [reflexivity |].
    unfold find_descriptor. cbn [find].
    rewrite (H d (or_introl eq_refl)). apply IH.
    intros d' Hd'. apply H. right. exact Hd'.
Qed.

(** Discovery takes the first interface of the active configuration and
    gives the first endpoint of it that [matches], or [None]; it raises
    nothing when there is no such endpoint. *)
Lemma discover_first_interface :
  forall matches dev i0 others script tr,
    discover matches (mkState (Some dev) (RConfig (i0 :: others) :: script) tr)
    = (Ret (find_descriptor (endpoints i0) matches),
       mkState (Some dev) script (tr ++ [Called (GetActiveConfiguration dev)])).
Proof.
  intros matches dev i0 others script tr.
  cbv [discover bind self_device invoke expect_config getitem0 ret device
       pending trace find_descriptor].
  cbn [find]. rewrite Z.eqb_refl. reflexivity.
Qed.

Lemma accept_data_loop :
  forall dev i0 others script tr,
    accept_data (mkState (Some dev) (RConfig (i0 :: others) :: script) tr)
    = while_true (receive_step (find_descriptor (endpoints i0) is_in))
        (mkState (Some dev) script
           (tr ++ [ConsolePrint "[bold blue]Accepting data...";
                   Called (GetActiveConfiguration dev)])).
Proof.
  intros dev i0 others script tr.
  unfold accept_data. unfold bind at 1. unfold console_print, log.
  cbn [device pending trace]. unfold bind at 1.
  rewrite discover_first_interface. flatten_trace. reflexivity.
Qed.

Lemma write_loop :
  forall dev i0 others script tr,
    write (mkState (Some dev) (RConfig (i0 :: others) :: script) tr)
    = while_true (write_step (find_descriptor (endpoints i0) is_out))
        (mkState (Some dev) script (tr ++ [Called (GetActiveConfiguration dev)])).
Proof.
  intros dev i0 others script tr.
  unfold write. unfold bind at 1. rewrite discover_first_interface. reflexivity.
Qed.

(** ** The receive loop *)

Lemma receive_step_received :
  forall dev ep b more script tr,
    receive_step (Some ep) (mkState (Some dev) (RArray (b :: more) :: script) tr)
    = (Ret Continue,
       mkState (Some dev) script (tr ++ events_of dev ep (Received b more))).
Proof. intros. cbn -[str_N Byte.to_N]. flatten_trace. reflexivity. Qed.

Lemma receive_step_usb_error :
  forall dev ep errno strerror script tr,
    receive_step (Some ep)
      (mkState (Some dev) (RRaise (USBError errno strerror) :: script) tr)
    = (Ret Break,
       mkState (Some dev) script
         (tr ++ [Called (EpRead ep 1 0);
                 Print "failed to send IN transfer";
                 Print (str_exn (USBError errno strerror))])).
Proof. intros. cbn -[str_exn]. flatten_trace. reflexivity. Qed.

(** A [KeyboardInterrupt] in the read: the message, then the detach on
    interface 0, whose outcome is the outcome of the turn. *)
Lemma receive_step_interrupt :
  forall dev ep detached script tr,
    receive_step (Some ep)
      (mkState (Some dev) (RRaise KeyboardInterrupt :: detached :: script) tr)
    = (match detached with RRaise e => Raise e | _ => Ret Continue end,
       mkState (Some dev) script (tr ++ events_of dev ep Interrupted)).
Proof. intros. destruct detached; cbn; flatten_trace; reflexivity. Qed.

Lemma receive_step_turn :
  forall t dev ep script tr,
    receive_step (Some ep) (mkState (Some dev) (replies_of t ++ script) tr)
    = (Ret Continue, mkState (Some dev) script (tr ++ events_of dev ep t)).
Proof.
  intros [b more |] dev ep script tr; cbn [replies_of app].
  - apply receive_step_received.
  - rewrite receive_step_interrupt. reflexivity.
Qed.

Lemma while_fuel_turns :
  forall turns fuel dev ep script tr,
    while_fuel (List.length turns + fuel) (receive_step (Some ep))
      (mkState (Some dev) (flat_map replies_of turns ++ script) tr)
    = while_fuel fuel (receive_step (Some ep))
        (mkState (Some dev) script (tr ++ flat_map (events_of dev ep) turns)).
Proof.
  induction turns as [| t turns IH]; intros fuel dev ep script tr.
  - cbn [flat_map app List.length Nat.add]. rewrite app_nil_r. reflexivity.
  - cbn [flat_map List.length Nat.add while_fuel]. rewrite <- app_assoc.
    rewrite receive_step_turn, IH. rewrite <- app_assoc. reflexivity.
Qed.

Lemma turns_replies_length :
  forall turns, (List.length turns <= List.length (flat_map replies_of turns))%nat.
Proof.
  induction turns as [| t turns IH]; [reflexivity |].
  cbn [flat_map List.length]. rewrite length_app.
  destruct t; cbn [replies_of List.length]; lia.
Qed.

(** The loop of [accept_data] started on replies that begin with [turns]
    gets through them with fuel to spare. *)
Lemma while_true_turns :
  forall turns dev ep script tr,
    script <> [] ->
    exists fuel,
      while_true (receive_step (Some ep))
        (mkState (Some dev) (flat_map replies_of turns ++ script) tr)
      = while_fuel (S fuel) (receive_step (Some ep))
          (mkState (Some dev) script (tr ++ flat_map (events_of dev ep) turns)).
Proof.
  intros turns dev ep script tr Hs.
  unfold while_true. cbn [pending]. rewrite length_app.
  pose proof (turns_replies_length turns) as Hle.
  destruct script as [| r script]; [contradiction |]. cbn [List.length].
  exists (S (List.length (flat_map replies_of turns) - List.length turns
             + List.length script))%nat.
  rewrite <- while_fuel_turns. f_equal. lia.
Qed.

(** The fuel [while_true] gives to the two loops is never used up. *)
Lemma while_fuel_enough :
  forall body,
    (forall st, fst (body st) <> Stop OutOfFuel) ->
    (forall st st', body st = (Ret Continue, st') -> consumed st st') ->
    forall fuel st,
      (List.length (pending st) < fuel)%nat ->
      fst (while_fuel fuel body st) <> Stop OutOfFuel.
Proof.
  intros body Hno Hcons fuel.
  induction fuel as [| fuel IH]; intros st Hlt; [lia |].
  cbn [while_fuel]. specialize (Hno st). specialize (Hcons st).
  destruct (body st) as [[[] | e | s] st']; cbn [fst] in *.
  - apply IH. specialize (Hcons st' eq_refl). unfold consumed in Hcons. lia.
  - discriminate.
  - discriminate.
  - intro H. apply Hno. injection H as ->. reflexivity.
Qed.

Lemma receive_step_consumes :
  forall ep_in st,
    fst (receive_step ep_in st) <> Stop OutOfFuel /\
    (forall st', receive_step ep_in st = (Ret Continue, st') -> consumed st st').
Proof.
  intros ep_in [d script tr]. unfold consumed.
  destruct ep_in as [ep |]; [| cbn; split; [discriminate | intros st' H; discriminate H]].
  destruct script as [| r script];
    [cbn; split; [discriminate | intros st' H; discriminate H] |].
  destruct r as [| data | n | found | cfg | s | e];
    try (cbn; split; [discriminate | intros st' H; discriminate H]).
  - destruct data as [| b data]; cbn -[str_N Byte.to_N];
      (split; [discriminate | intros st' H]); [discriminate H |].
    injection H as <-. cbn. lia.
  - destruct e; try (cbn; split; [discriminate | intros st' H; discriminate H]).
    destruct d as [dev |];
      [| cbn; split; [discriminate | intros st' H; discriminate H]].
    destruct script as [| r script];
      [cbn; split; [discriminate | intros st' H; discriminate H] |].
    destruct r; cbn; (split; [discriminate | intros st' H]);
      try discriminate H; injection H as <-; cbn; lia.
Qed.

Lemma write_step_consumes :
  forall ep_out st,
    fst (write_step ep_out st) <> Stop OutOfFuel /\
    (forall st', write_step ep_out st = (Ret Continue, st') -> consumed st st').
Proof.
  intros ep_out [d script tr]. unfold consumed.
  destruct script as [| r script];
    [cbn; split; [discriminate | intros st' H; discriminate H] |].
  destruct r as [| data | n | found | cfg | s | e];
    try (cbn; split; [discriminate | intros st' H; discriminate H]).
  destruct ep_out as [ep |];
    [| cbn; split; [discriminate | intros st' H; discriminate H]].
  destruct script as [| r script];
    [cbn; split; [discriminate | intros st' H; discriminate H] |].
  destruct r; cbn; (split; [discriminate | intros st' H]);
    try discriminate H; injection H as <-; cbn; lia.
Qed.

Lemma loops_have_fuel :
  forall ep st,
    fst (while_true (receive_step ep) st) <> Stop OutOfFuel /\
    fst (while_true (write_step ep) st) <> Stop OutOfFuel.
Proof.
  intros ep st. unfold while_true. split; apply while_fuel_enough; try lia.
  - intro st0. apply receive_step_consumes.
  - intros st0 st'. apply receive_step_consumes.
  - intro st0. apply write_step_consumes.
  - intros st0 st'. apply write_step_consumes.
Qed.

Lemma log_extended_while_receive :
  forall ep_in fuel, respects log_extended (while_fuel fuel (receive_step ep_in)).
Proof.
  intros ep_in fuel. apply respects_while_fuel.
  - exact log_extended_refl.
  - exact log_extended_trans.
  - apply respects_receive_step.
    + exact log_extended_refl.
    + exact log_extended_trans.
    + exact log_extended_log.
    + exact log_extended_invoke.
Qed.

(** C8: when a read of the receive loop raises a [USBError], after turns
    in which the loop went on, [accept_data] prints the failure line and
    the text of the error and returns; the replies after the error are
    left untouched, so no read follows it; and every byte received before
    it was printed in decimal. *)
Theorem accept_data_transport_error :
  forall dev i0 others ep turns errno strerror rest tr,
    find_descriptor (endpoints i0) is_in = Some ep ->
    let st := mkState (Some dev)
                (RConfig (i0 :: others)
                   :: flat_map replies_of turns
                   ++ RRaise (USBError errno strerror) :: rest) tr in
    accept_data st
    = (Ret tt,
       mkState (Some dev) rest
         (tr ++ [ConsolePrint "[bold blue]Accepting data...";
                 Called (GetActiveConfiguration dev)]
             ++ flat_map (events_of dev ep) turns
             ++ [Called (EpRead ep 1 0);
                 Print "failed to send IN transfer";
                 Print (str_exn (USBError errno strerror))])) /\
    (forall b more, In (Received b more) turns ->
       In (Print (str_N (Byte.to_N b))) (trace (snd (accept_data st)))).
Proof.
  intros dev i0 others ep turns errno strerror rest tr Hep st.
  assert (Hrun : accept_data st
    = (Ret tt,
       mkState (Some dev) rest
         (tr ++ [ConsolePrint "[bold blue]Accepting data...";
                 Called (GetActiveConfiguration dev)]
             ++ flat_map (events_of dev ep) turns
             ++ [Called (EpRead ep 1 0);
                 Print "failed to send IN transfer";
                 Print (str_exn (USBError errno strerror))]))).
  { subst st. rewrite accept_data_loop, Hep.
    destruct (while_true_turns turns dev ep
                (RRaise (USBError errno strerror) :: rest)
                (tr ++ [ConsolePrint "[bold blue]Accepting data...";
                        Called (GetActiveConfiguration dev)]))
      as [fuel ->]; [discriminate |].
    cbn [while_fuel]. rewrite receive_step_usb_error.
    repeat rewrite <- app_assoc. reflexivity. }
  split; [exact Hrun |].
  intros b more Hin. rewrite Hrun. cbn [snd trace].
  apply in_or_app. right. apply in_or_app. right. apply in_or_app. left.
  apply in_flat_map. exists (Received b more). split; [exact Hin |].
  cbn. right. left. reflexivity.
Qed.

Lemma accept_data_transport_error_witness :
  accept_data
    (mkState (Some 0%nat)
       [RConfig [mkInterface 0 [mkEndpoint 0x01; mkEndpoint 0x81]];
        RArray [Byte.x2a]; RArray [Byte.xff];
        RRaise (USBError (Some 19) "No such device");
        RArray [Byte.x07]] [])
  = (Ret tt,
     mkState (Some 0%nat) [RArray [Byte.x07]]
       [ConsolePrint "[bold blue]Accepting data...";
        Called (GetActiveConfiguration 0%nat);
        Called (EpRead (mkEndpoint 0x81) 1 0); Print "42";
        Called (EpRead (mkEndpoint 0x81) 1 0); Print "255";
        Called (EpRead (mkEndpoint 0x81) 1 0);
        Print "failed to send IN transfer";
        Print "[Errno 19] No such device"]).
Proof.
  apply (accept_data_transport_error 0%nat
           (mkInterface 0 [mkEndpoint 0x01; mkEndpoint 0x81]) []
           (mkEndpoint 0x81) [Received Byte.x2a []; Received Byte.xff []]
           (Some 19) "No such device" [RArray [Byte.x07]] []).
  reflexivity.
Defined.

(** C2 as the code has it: a [KeyboardInterrupt] in a read of the receive
    loop is answered by the message and a kernel-driver detach on
    interface 0; when the detach raises, the exception leaves
    [accept_data] and no read follows. *)
Theorem accept_data_interrupt :
  forall dev i0 others ep turns after tr,
    find_descriptor (endpoints i0) is_in = Some ep ->
    let st := mkState (Some dev)
                (RConfig (i0 :: others)
                   :: flat_map replies_of turns
                   ++ RRaise KeyboardInterrupt :: after) tr in
    let upto := tr ++ [ConsolePrint "[bold blue]Accepting data...";
                       Called (GetActiveConfiguration dev)]
                   ++ flat_map (events_of dev ep) turns
                   ++ [Called (EpRead ep 1 0);
                       ConsolePrint "Disconnecting device......... ";
                       Called (DetachKernelDriver dev 0)] in
    (exists more, trace (snd (accept_data st)) = upto ++ more) /\
    (forall e rest, after = RRaise e :: rest ->
       accept_data st = (Raise e, mkState (Some dev) rest upto)).
Proof.
  intros dev i0 others ep turns after tr Hep st upto. subst st upto.
  rewrite accept_data_loop, Hep.
  destruct (while_true_turns turns dev ep (RRaise KeyboardInterrupt :: after)
              (tr ++ [ConsolePrint "[bold blue]Accepting data...";
                      Called (GetActiveConfiguration dev)]))
    as [fuel ->]; [discriminate |].
  cbn [while_fuel]. split.
  - destruct after as [| detached after].
    + exists []. cbn. flatten_trace. reflexivity.
    + rewrite receive_step_interrupt.
      destruct detached;
        try (match goal with
             | |- context [while_fuel fuel _ ?s] =>
                 destruct (log_extended_while_receive (Some ep) fuel s)
                   as [more Hmore]
             end;
             exists more; rewrite Hmore; cbn [trace events_of];
             flatten_trace; reflexivity).
      exists []. cbn. flatten_trace. reflexivity.
  - intros e rest ->. rewrite receive_step_interrupt.
    cbn [events_of]. flatten_trace. reflexivity.
Qed.

Lemma accept_data_interrupt_witness :
  accept_data
    (mkState (Some 0%nat)
       [RConfig [mkInterface 0 [mkEndpoint 0x81]];
        RArray [Byte.x2a];
        RRaise KeyboardInterrupt;
        RRaise (USBError (Some 2) "Entity not found");
        RArray [Byte.x07]] [])
  = (Raise (USBError (Some 2) "Entity not found"),
     mkState (Some 0%nat) [RArray [Byte.x07]]
       [ConsolePrint "[bold blue]Accepting data...";
        Called (GetActiveConfiguration 0%nat);
        Called (EpRead (mkEndpoint 0x81) 1 0); Print "42";
        Called (EpRead (mkEndpoint 0x81) 1 0);
        ConsolePrint "Disconnecting device......... ";
        Called (DetachKernelDriver 0%nat 0)]).
Proof.
  apply (proj2 (accept_data_interrupt 0%nat (mkInterface 0 [mkEndpoint 0x81]) []
                  (mkEndpoint 0x81) [Received Byte.x2a []]
                  [RRaise (USBError (Some 2) "Entity not found"); RArray [Byte.x07]]
                  [] eq_refl)).
  reflexivity.
Defined.

(** C2 as stated fails.  After an interrupt whose detach returns, the loop
    goes on reading (first run: a byte is read and printed after the
    detach); after an interrupt whose detach raises, [accept_data] is left
    by that exception instead of returning (second run). *)
Lemma accept_data_interrupt_goes_on :
  accept_data
    (mkState (Some 0%nat)
       [RConfig [mkInterface 0 [mkEndpoint 0x81]];
        RRaise KeyboardInterrupt; RNone;
        RArray [Byte.x07];
        RRaise (USBError (Some 19) "No such device")] [])
  = (Ret tt,
     mkState (Some 0%nat) []
       [ConsolePrint "[bold blue]Accepting data...";
        Called (GetActiveConfiguration 0%nat);
        Called (EpRead (mkEndpoint 0x81) 1 0);
        ConsolePrint "Disconnecting device......... ";
        Called (DetachKernelDriver 0%nat 0);
        Called (EpRead (mkEndpoint 0x81) 1 0); Print "7";
        Called (EpRead (mkEndpoint 0x81) 1 0);
        Print "failed to send IN transfer";
        Print "[Errno 19] No such device"]) /\
  fst (accept_data
         (mkState (Some 0%nat)
            [RConfig [mkInterface 0 [mkEndpoint 0x81]];
             RRaise KeyboardInterrupt;
             RRaise (USBError (Some 2) "Entity not found")] []))
  = Raise (USBError (Some 2) "Entity not found").
Proof. split; vm_compute; reflexivity. Qed.

(** ** Missing endpoints *)

(** With no endpoint to read from, the first turn of the receive loop
    raises before any read. *)
Lemma while_true_receive_none :
  forall st,
    while_true (receive_step None) st = (Raise AttributeError, st).
Proof. intro st. reflexivity. Qed.

(** With no endpoint to write to, the send loop asks for a line and ends
    in its first turn, whatever the console gives. *)
Lemma while_true_write_none :
  forall dev script tr,
    let r := while_true (write_step None) (mkState (Some dev) script tr) in
    trace (snd r) = tr ++ [Called (ConsoleInput "[bold blue]Write: ")] /\
    (forall line rest, script = RLine line :: rest ->
       r = (Raise AttributeError,
            mkState (Some dev) rest (tr ++ [Called (ConsoleInput "[bold blue]Write: ")]))).
Proof.
  intros dev script tr r. subst r. unfold while_true. cbn [pending while_fuel].
  destruct script as [| reply script].
  - split; [reflexivity | discriminate].
  - destruct reply; (split; [reflexivity | intros line rest H; try discriminate H]).
    injection H as -> ->. reflexivity.
Qed.

(** C7 as the code has it: discovery gives the first endpoint of the
    interface whose address has bit 7 set (receive mode) or clear (send
    mode), never one of the other direction, and gives nothing, without
    raising, when there is none.  The channel then fails at the first use
    of the missing endpoint: [accept_data] with an [AttributeError] before
    any read, [write] with an [AttributeError] once the first line has been
    entered; in neither case is a transfer made. *)
Theorem endpoint_discovery :
  forall dev i0 others script tr,
    let st := mkState (Some dev) (RConfig (i0 :: others) :: script) tr in
    let discovered := tr ++ [Called (GetActiveConfiguration dev)] in
    (forall ep, find_descriptor (endpoints i0) is_in = Some ep ->
       In ep (endpoints i0) /\ Z.testbit (bEndpointAddress ep) 7 = true) /\
    (forall ep, find_descriptor (endpoints i0) is_out = Some ep ->
       In ep (endpoints i0) /\ Z.testbit (bEndpointAddress ep) 7 = false) /\
    discover is_in st
    = (Ret (find_descriptor (endpoints i0) is_in), mkState (Some dev) script discovered) /\
    discover is_out st
    = (Ret (find_descriptor (endpoints i0) is_out), mkState (Some dev) script discovered) /\
    ((forall ep, In ep (endpoints i0) -> is_in ep = false) ->
       accept_data st
       = (Raise AttributeError,
          mkState (Some dev) script
            (tr ++ [ConsolePrint "[bold blue]Accepting data...";
                    Called (GetActiveConfiguration dev)]))) /\
    ((forall ep, In ep (endpoints i0) -> is_out ep = false) ->
       trace (snd (write st))
       = discovered ++ [Called (ConsoleInput "[bold blue]Write: ")] /\
       (forall line rest, script = RLine line :: rest ->
          write st
          = (Raise AttributeError,
             mkState (Some dev) rest
               (discovered ++ [Called (ConsoleInput "[bold blue]Write: ")])))).
Proof.
  intros dev i0 others script tr st discovered. subst st discovered.
  repeat split.
  - apply find_descriptor_some in H. apply H.
  - apply find_descriptor_some in H. destruct H as [_ H].
    rewrite is_in_bit7 in H. exact H.
  - apply find_descriptor_some in H. apply H.
  - apply find_descriptor_some in H. destruct H as [_ H].
    rewrite is_out_bit7 in H. apply negb_true_iff in H. exact H.
  - apply discover_first_interface.
  - apply discover_first_interface.
  - intro Hnone. apply find_descriptor_none in Hnone.
    rewrite accept_data_loop, Hnone. apply while_true_receive_none.
  - apply find_descriptor_none in H. rewrite write_loop, H.
    apply (proj1 (while_true_write_none dev script _)).
  - intros line rest Hs. apply find_descriptor_none in H. rewrite write_loop, H.
    apply (proj2 (while_true_write_none dev script _) line rest Hs).
Qed.

Lemma endpoint_discovery_witness :
  (In (mkEndpoint 0x81)
      (endpoints (mkInterface 0 [mkEndpoint 0x01; mkEndpoint 0x81; mkEndpoint 0x82])) /\
   Z.testbit (bEndpointAddress (mkEndpoint 0x81)) 7 = true) /\
  accept_data (mkState (Some 0%nat) [RConfig [mkInterface 0 [mkEndpoint 0x01]]] [])
  = (Raise AttributeError,
     mkState (Some 0%nat) []
       [ConsolePrint "[bold blue]Accepting data...";
        Called (GetActiveConfiguration 0%nat)]) /\
  write (mkState (Some 0%nat)
           [RConfig [mkInterface 0 [mkEndpoint 0x81]]; RLine "hello"; RInt 5] [])
  = (Raise AttributeError,
     mkState (Some 0%nat) [RInt 5]
       [Called (GetActiveConfiguration 0%nat);
        Called (ConsoleInput "[bold blue]Write: ")]).
Proof.
  split; [| split].
  - apply (proj1 (endpoint_discovery 0%nat
                    (mkInterface 0 [mkEndpoint 0x01; mkEndpoint 0x81; mkEndpoint 0x82])
                    [] [] [])).
    reflexivity.
  - apply (proj1 (proj2 (proj2 (proj2 (proj2
             (endpoint_discovery 0%nat (mkInterface 0 [mkEndpoint 0x01]) [] [] [])))))).
    intros ep [<- | []]. reflexivity.
  - assert (Hnone : forall ep,
              In ep (endpoints (mkInterface 0 [mkEndpoint 0x81])) -> is_out ep = false)
      by (intros ep [<- | []]; reflexivity).
    exact (proj2 (proj2 (proj2 (proj2 (proj2 (proj2
             (endpoint_discovery 0%nat (mkInterface 0 [mkEndpoint 0x81]) []
                [RLine "hello"; RInt 5] []))))) Hnone)
             "hello" [RInt 5] eq_refl).
Defined.

(** C7 as stated fails: with no OUT endpoint, discovery raises nothing and
    [write] goes on to ask for a line; at the end of the input it is left
    by the [EOFError] of the console, not by a failure to find the
    endpoint. *)
Lemma write_without_out_endpoint :
  find_descriptor (endpoints (mkInterface 0 [mkEndpoint 0x81])) is_out = None /\
  write (mkState (Some 0%nat)
           [RConfig [mkInterface 0 [mkEndpoint 0x81]]; RRaise EOFError] [])
  = (Raise EOFError,
     mkState (Some 0%nat) []
       [Called (GetActiveConfiguration 0%nat);
        Called (ConsoleInput "[bold blue]Write: ")]).
Proof. split; vm_compute; reflexivity. Qed.

(** * Further properties of the negotiation *)

(** A run of [prepare_device] in which every step succeeds: the device is
    configured, reports a version of at least 2, acknowledges the six
    identity strings with their lengths and the trigger with zero, and is
    found again.  The three commands are reported OK in order and [device]
    ends as the handle found by the scan. *)
Theorem prepare_device_success :
  forall dev dev' v more rest tr,
    (2 <= Byte.to_N v)%N ->
    prepare_device
      (mkState (Some dev)
         (RNone :: RArray (v :: more)
            :: map RInt identity_lengths
            ++ RInt 0 :: RDevice (Some dev') :: rest) tr)
    = (Ret tt,
       mkState (Some dev') rest
         (tr ++ checked_log dev
             ++ map (identity_write dev) identity
             ++ [ConsolePrint "[bold green]OK";
                 ConsolePrint "Triggering accessory mode......... ";
                 mode_trigger dev; Sleep 1; Called Find;
                 ConsolePrint "[bold green]OK"])).
Proof.
  intros dev dev' v more rest tr Hv. apply N.ltb_ge in Hv.
  unfold prepare_device.
  erewrite run_commands_ok.
  2:{ cbn [console_print log snd device pending trace].
      rewrite set_protocol_version by discriminate. rewrite Hv. reflexivity. }
  erewrite run_commands_ok.
  2:{ cbn [console_print log snd device pending trace].
      rewrite send_accessory_parameters_send_all.
      apply send_all_matching. }
  erewrite run_commands_ok.
  2:{ cbn [console_print log snd device pending trace]. reflexivity. }
  cbn. flatten_trace. reflexivity.
Qed.

Lemma prepare_device_success_witness :
  fst (prepare_device
         (mkState (Some 1%nat)
            (RNone :: RArray [Byte.x02; Byte.x00]
               :: map RInt identity_lengths
               ++ RInt 0 :: RDevice (Some 2%nat) :: []) []))
  = Ret tt /\
  device (snd (prepare_device
                 (mkState (Some 1%nat)
                    (RNone :: RArray [Byte.x02; Byte.x00]
                       :: map RInt identity_lengths
                       ++ RInt 0 :: RDevice (Some 2%nat) :: []) [])))
  = Some 2%nat.
Proof.
  assert (Hv : (2 <= Byte.to_N Byte.x02)%N) by (vm_compute; discriminate).
  pose proof (prepare_device_success 1%nat 2%nat Byte.x02 [Byte.x00] [] [] Hv) as E.
  split; [exact (f_equal fst E) | exact (f_equal (fun r => device (snd r)) E)].
Defined.

Lemma run_commands_raises :
  forall commands st e,
    fst (run_commands commands st) = Raise e ->
    e = SystemExit 1 /\
    exists tr0 e0,
      trace (snd (run_commands commands st))
      = tr0 ++ [ConsolePrint "[bold red]FAIL"; ConsolePrintException e0].
Proof.
  induction commands as [| [name command] rest IH]; intros st e H.
  - discriminate H.
  - destruct (command (snd (console_print (name ++ "......... ")%string st)))
      as [[[] | e0 | s] st'] eqn:E.
    + assert (R : run_commands ((name, command) :: rest) st
                  = run_commands rest (snd (console_print "[bold green]OK" st')))
        by exact (run_commands_ok name command rest st st' E).
      rewrite R in H. rewrite R. exact (IH _ _ H).
    + assert (R : run_commands ((name, command) :: rest) st
                  = (Raise (SystemExit 1),
                     mkState (device st') (pending st')
                       (trace st' ++ [ConsolePrint "[bold red]FAIL";
                                      ConsolePrintException e0])))
        by exact (run_commands_fail name command rest st st' e0 E).
      rewrite R in H. rewrite R.
      injection H as <-. split; [reflexivity |].
      exists (trace st'), e0. reflexivity.
    + assert (R : run_commands ((name, command) :: rest) st = (Stop s, st'))
        by exact (run_commands_stop name command rest st st' s E).
      rewrite R in H. discriminate H.
Qed.



(** An identity string that is not acknowledged with its length ends the
    run of [prepare_device]: the writes up to that string have been made,
    FAIL and the [ValueError] are printed, and the run exits without the
    mode trigger and without a scan of the bus. *)
Theorem prepare_device_identity_rejected :
  forall dev v more acks i tr,
    (2 <= Byte.to_N v)%N ->
    (i < 6)%nat -> (i < List.length acks)%nat ->
    firstn i acks = firstn i identity_lengths ->
    nth i acks 0 <> nth i identity_lengths 0 ->
    prepare_device
      (mkState (Some dev) (RNone :: RArray (v :: more) :: map RInt acks) tr)
    = (Raise (SystemExit 1),
       mkState (Some dev) (map RInt (skipn (S i) acks))
         (tr ++ checked_log dev
             ++ map (identity_write dev) (firstn (S i) identity)
             ++ [ConsolePrint "[bold red]FAIL";
                 ConsolePrintException identity_rejected])).
Proof.
  intros dev v more acks i tr Hv Hi Ha Hpre Hne. apply N.ltb_ge in Hv.
  unfold prepare_device.
  erewrite run_commands_ok.
  2:{ cbn [console_print log snd device pending trace].
      rewrite set_protocol_version by discriminate. rewrite Hv. reflexivity. }
  erewrite run_commands_fail.
  2:{ cbn [console_print log snd device pending trace].
      rewrite send_accessory_parameters_send_all.
      apply send_all_first_mismatch; eassumption. }
  cbn [device pending trace]. unfold checked_log. flatten_trace. reflexivity.
Qed.

Lemma prepare_device_identity_rejected_witness :
  prepare_device
    (mkState (Some 0%nat)
       (RNone :: RArray [Byte.x02; Byte.x00] :: map RInt [12; 18; 0; 5]) [])
  = (Raise (SystemExit 1),
     mkState (Some 0%nat) (map RInt [5])
       (checked_log 0%nat
          ++ map (identity_write 0%nat) (firstn 3 identity)
          ++ [ConsolePrint "[bold red]FAIL";
              ConsolePrintException identity_rejected])).
Proof.
  apply (prepare_device_identity_rejected 0%nat Byte.x02 [Byte.x00]
           [12; 18; 0; 5] 2%nat []).
  - vm_compute. discriminate.
  - lia.
  - cbn. lia.
  - reflexivity.
  - vm_compute. discriminate.
Defined.

Lemma send_all_error :
  forall l1 p l2 dev e rest tr,
    send_all (l1 ++ p :: l2)
      (mkState (Some dev)
         (map RInt (map (fun q => len (snd q)) l1) ++ RRaise e :: rest) tr)
    = (Raise e,
       mkState (Some dev) rest (tr ++ map (identity_write dev) (l1 ++ [p]))).
Proof.
  induction l1 as [| q l1 IH]; intros [str_id str_val] l2 dev e rest tr.
  - reflexivity.
  - cbn [map app]. rewrite send_all_step, Z.eqb_refl, IH.
    flatten_trace. reflexivity.
Qed.

(** A transport error in the write of an identity string leaves
    [send_accessory_parameters] as it is, after the strings before it were
    acknowledged; no later string is written. *)
Theorem send_accessory_parameters_transport_error :
  forall dev i e rest tr,
    (i < 6)%nat ->
    send_accessory_parameters
      (mkState (Some dev)
         (map RInt (firstn i identity_lengths) ++ RRaise e :: rest) tr)
    = (Raise e,
       mkState (Some dev) rest
         (tr ++ map (identity_write dev) (firstn (S i) identity))).
Proof.
  intros dev i e rest tr Hi. rewrite send_accessory_parameters_send_all.
  assert (Hat : forall n,
            send_all (firstn n identity ++ nth n identity (0, "") :: skipn (S n) identity)
              (mkState (Some dev)
                 (map RInt (map (fun q => len (snd q)) (firstn n identity))
                    ++ RRaise e :: rest) tr)
            = (Raise e,
               mkState (Some dev) rest
                 (tr ++ map (identity_write dev)
                          (firstn n identity ++ [nth n identity (0, "")]))))
    by (intro n; apply send_all_error).
  destruct i as [| [| [| [| [| [| i]]]]]];
    [exact (Hat 0%nat) | exact (Hat 1%nat) | exact (Hat 2%nat)
     | exact (Hat 3%nat) | exact (Hat 4%nat) | exact (Hat 5%nat) | lia].
Qed.

Lemma send_accessory_parameters_transport_error_witness :
  send_accessory_parameters
    (mkState (Some 0%nat)
       (map RInt (firstn 1 identity_lengths)
          ++ RRaise (USBError (Some 32) "Pipe error") :: [RInt 18]) [])
  = (Raise (USBError (Some 32) "Pipe error"),
     mkState (Some 0%nat) [RInt 18]
       (map (identity_write 0%nat) (firstn 2 identity))).
Proof.
  apply (send_accessory_parameters_transport_error 0%nat 1%nat
           (USBError (Some 32) "Pipe error") [RInt 18] []).
  lia.
Defined.

(** An error of the version read is not subject to the handler of the
    configuration step: whatever it is, errno 16 or not, it leaves
    [set_protocol]; and a version read that gives no byte at all raises
    [IndexError]. *)
Theorem set_protocol_version_read_fails :
  forall dev e rest tr,
    set_protocol (mkState (Some dev) (RNone :: RRaise e :: rest) tr)
    = (Raise e,
       mkState (Some dev) rest
         (tr ++ [Called (SetConfiguration dev); version_read dev])) /\
    set_protocol (mkState (Some dev) (RNone :: RArray [] :: rest) tr)
    = (Raise IndexError,
       mkState (Some dev) rest
         (tr ++ [Called (SetConfiguration dev); version_read dev])).
Proof. intros. split; cbn; flatten_trace; reflexivity. Qed.

(** [set_accessory_mode] assigns [device] only when it returns: a run that
    raises, at the trigger or at the scan, keeps the handle. *)
Theorem set_accessory_mode_keeps_device_on_failure :
  forall st,
    fst (set_accessory_mode st) <> Ret tt ->
    device (snd (set_accessory_mode st)) = device st.
Proof.
  intros [d script tr].
  destruct d as [dev |]; [| reflexivity].
  destruct script as [| ack script]; [reflexivity |].
  assert (Hscan : forall st0,
            st0 = mkState (Some dev) script (tr ++ [mode_trigger dev]) ->
            forall r, r = (sleep 1 ;; found <- invoke Find ;;
                            if negb (truthy found)
                            then raise device_lost
                            else match found with
                                 | RDevice (Some dev') => set_device dev'
                                 | _ => halt IllShaped
                                 end) st0 ->
            fst r <> Ret tt -> device (snd r) = Some dev).
  { intros st0 -> r -> H. revert H.
    destruct script as [| found script]; [reflexivity |].
    destruct found as [| data | n | [dev' |] | cfg | s | e]; cbn;
      try reflexivity.
    - destruct data; reflexivity.
    - destruct (n =? 0); reflexivity.
    - intro H. contradiction H. reflexivity.
    - destruct s; reflexivity. }
  destruct ack as [| data | n | [dev' |] | cfg | s | e];
    try reflexivity;
    try (apply (Hscan _ eq_refl); reflexivity).
  - destruct data; [apply (Hscan _ eq_refl) |]; reflexivity.
  - destruct (Z.eqb_spec n 0) as [-> | Hn].
    + apply (Hscan _ eq_refl). reflexivity.
    + cbv [set_accessory_mode bind self_device invoke device pending trace truthy].
      destruct (Z.eqb_spec n 0); [contradiction | reflexivity].
  - destruct s; [apply (Hscan _ eq_refl) |]; reflexivity.
Qed.

Lemma set_accessory_mode_keeps_device_on_failure_witness :
  device (snd (set_accessory_mode
                 (mkState (Some 4%nat) [RInt 0; RDevice None] [])))
  = Some 4%nat.
Proof.
  apply (set_accessory_mode_keeps_device_on_failure
           (mkState (Some 4%nat) [RInt 0; RDevice None] [])).
  discriminate.
Defined.

(** Without a selected device ([device] is [None]) no method makes a call:
    each raises [AttributeError] at its first use of [self.device];
    [accept_data] has printed its banner by then, and [prepare_device]
    reports the failure of its first command and exits. *)
Theorem no_device_no_call :
  forall script tr,
    let st := mkState None script tr in
    set_protocol st = (Raise AttributeError, st) /\
    send_accessory_parameters st = (Raise AttributeError, st) /\
    set_accessory_mode st = (Raise AttributeError, st) /\
    write st = (Raise AttributeError, st) /\
    accept_data st
    = (Raise AttributeError,
       mkState None script (tr ++ [ConsolePrint "[bold blue]Accepting data..."])) /\
    prepare_device st
    = (Raise (SystemExit 1),
       mkState None script
         (tr ++ [ConsolePrint "Verifying protocol......... ";
                 ConsolePrint "[bold red]FAIL";
                 ConsolePrintException AttributeError])).
Proof.
  intros script tr st. subst st.
  repeat split; cbn; flatten_trace; reflexivity.
Qed.

(** * Further properties of the data phase *)

(** A loop whose body never breaks never returns. *)
Lemma while_fuel_no_break :
  forall body,
    (forall st, fst (body st) <> Ret Break) ->
    forall fuel st, fst (while_fuel fuel body st) <> Ret tt.
Proof.
  intros body Hb fuel. induction fuel as [| fuel IH]; intro st; cbn [while_fuel].
  - discriminate.
  - specialize (Hb st). destruct (body st) as [[[] | e | s] st']; cbn [fst] in *.
    + apply IH.
    + contradiction Hb. reflexivity.
    + discriminate.
    + discriminate.
Qed.

Lemma write_step_no_break :
  forall ep_out st, fst (write_step ep_out st) <> Ret Break.
Proof.
  intros ep_out [d script tr].
  destruct script as [| r script]; [discriminate |].
  destruct r; try discriminate.
  destruct ep_out as [ep |]; [| discriminate].
  destruct script as [| r script]; [discriminate |].
  destruct r; discriminate.
Qed.

Lemma write_does_not_return :
  forall st, fst (write st) <> Ret tt.
Proof.
  intro st. unfold write, bind.
  destruct (discover is_out st) as [[ep_out | e | s] st']; try discriminate.
  apply while_fuel_no_break. apply write_step_no_break.
Qed.

(** The send loop has no way out but an exception: [write] never returns. *)
Theorem write_never_returns :
  forall st, fst (write st) <> Ret tt.
Proof. exact write_does_not_return. Qed.

Lemma write_step_sent :
  forall dev ep p script tr,
    write_step (Some ep) (mkState (Some dev) (sent_replies p ++ script) tr)
    = (Ret Continue, mkState (Some dev) script (tr ++ sent_events ep p)).
Proof. intros dev ep [line n] script tr. cbn. flatten_trace. reflexivity. Qed.

Lemma while_fuel_sent :
  forall sent fuel dev ep script tr,
    while_fuel (List.length sent + fuel) (write_step (Some ep))
      (mkState (Some dev) (flat_map sent_replies sent ++ script) tr)
    = while_fuel fuel (write_step (Some ep))
        (mkState (Some dev) script (tr ++ flat_map (sent_events ep) sent)).
Proof.
  induction sent as [| p sent IH]; intros fuel dev ep script tr.
  - cbn [flat_map app List.length Nat.add]. rewrite app_nil_r. reflexivity.
  - cbn [flat_map List.length Nat.add while_fuel]. rewrite <- app_assoc.
    rewrite write_step_sent, IH. rewrite <- app_assoc. reflexivity.
Qed.

Lemma while_true_sent :
  forall sent dev ep script tr,
    script <> [] ->
    exists fuel,
      while_true (write_step (Some ep))
        (mkState (Some dev) (flat_map sent_replies sent ++ script) tr)
      = while_fuel (S fuel) (write_step (Some ep))
          (mkState (Some dev) script (tr ++ flat_map (sent_events ep) sent)).
Proof.
  intros sent dev ep script tr Hs.
  unfold while_true. cbn [pending]. rewrite length_app.
  assert (Hle : (List.length sent <= List.length (flat_map sent_replies sent))%nat).
  { clear. induction sent as [| p sent IH]; [reflexivity |].
    cbn [flat_map List.length sent_replies app]. lia. }
  destruct script as [| r script]; [contradiction |]. cbn [List.length].
  exists (S (List.length (flat_map sent_replies sent) - List.length sent
             + List.length script))%nat.
  rewrite <- while_fuel_sent. f_equal. lia.
Qed.

(** The send loop writes every line it is given to the OUT endpoint found
    by discovery, in order and as entered, whatever count the write
    returns.  It ends with the first exception: one raised by the write of
    a line, after which no further line is asked for, or one raised by the
    prompt itself. *)
Theorem write_sends_lines :
  forall dev i0 others ep sent e rest tr,
    find_descriptor (endpoints i0) is_out = Some ep ->
    let written := tr ++ [Called (GetActiveConfiguration dev)]
                      ++ flat_map (sent_events ep) sent in
    (forall line,
       write (mkState (Some dev)
                (RConfig (i0 :: others)
                   :: flat_map sent_replies sent ++ RLine line :: RRaise e :: rest) tr)
       = (Raise e,
          mkState (Some dev) rest
            (written ++ [Called (ConsoleInput "[bold blue]Write: ");
                         Called (EpWrite ep line)]))) /\
    write (mkState (Some dev)
             (RConfig (i0 :: others) :: flat_map sent_replies sent ++ RRaise e :: rest) tr)
    = (Raise e,
       mkState (Some dev) rest
         (written ++ [Called (ConsoleInput "[bold blue]Write: ")])).
Proof.
  intros dev i0 others ep sent e rest tr Hep written. subst written. split.
  - intro line. rewrite write_loop, Hep.
    destruct (while_true_sent sent dev ep (RLine line :: RRaise e :: rest)
                (tr ++ [Called (GetActiveConfiguration dev)]))
      as [fuel ->]; [discriminate |].
    cbn. flatten_trace. reflexivity.
  - rewrite write_loop, Hep.
    destruct (while_true_sent sent dev ep (RRaise e :: rest)
                (tr ++ [Called (GetActiveConfiguration dev)]))
      as [fuel ->]; [discriminate |].
    cbn. flatten_trace. reflexivity.
Qed.

Lemma write_sends_lines_witness :
  write (mkState (Some 0%nat)
           [RConfig [mkInterface 0 [mkEndpoint 0x81; mkEndpoint 0x02]];
            RLine "on"; RInt 2; RLine "off"; RInt 0;
            RRaise KeyboardInterrupt] [])
  = (Raise KeyboardInterrupt,
     mkState (Some 0%nat) []
       [Called (GetActiveConfiguration 0%nat);
        Called (ConsoleInput "[bold blue]Write: ");
        Called (EpWrite (mkEndpoint 0x02) "on");
        Called (ConsoleInput "[bold blue]Write: ");
        Called (EpWrite (mkEndpoint 0x02) "off");
        Called (ConsoleInput "[bold blue]Write: ")]).
Proof.
  apply (proj2 (write_sends_lines 0%nat
                  (mkInterface 0 [mkEndpoint 0x81; mkEndpoint 0x02]) []
                  (mkEndpoint 0x02) [("on", 2); ("off", 0)]
                  KeyboardInterrupt [] [] eq_refl)).
Defined.

Lemma receive_step_break :
  forall ep_in st st',
    receive_step ep_in st = (Ret Break, st') ->
    exists ep errno strerror,
      ep_in = Some ep /\
      trace st' = trace st ++ [Called (EpRead ep 1 0);
                               Print "failed to send IN transfer";
                               Print (str_exn (USBError errno strerror))].
Proof.
  intros ep_in [d script tr] st' H.
  destruct ep_in as [ep |]; [| discriminate H].
  destruct script as [| r script]; [discriminate H |].
  destruct r as [| data | n | found | cfg | s | e]; try discriminate H.
  - destruct data; discriminate H.
  - destruct e as [errno strerror | | | | | | |]; try discriminate H.
    + cbn -[str_exn] in H. injection H as <-.
      exists ep, errno, strerror. split; [reflexivity |].
      cbn -[str_exn]. flatten_trace. reflexivity.
    + destruct d as [dev |]; [| discriminate H].
      destruct script as [| r script]; [discriminate H |].
      destruct r; discriminate H.
Qed.

Lemma while_fuel_receive_returns :
  forall ep_in fuel st st',
    while_fuel fuel (receive_step ep_in) st = (Ret tt, st') ->
    exists tr0 ep errno strerror,
      ep_in = Some ep /\
      trace st' = tr0 ++ [Called (EpRead ep 1 0);
                          Print "failed to send IN transfer";
                          Print (str_exn (USBError errno strerror))].
Proof.
  intros ep_in fuel. induction fuel as [| fuel IH]; intros st st' H;
    cbn [while_fuel] in H; [discriminate H |].
  destruct (receive_step ep_in st) as [[[] | e | s] st1] eqn:E;
    try discriminate H.
  - exact (IH st1 st' H).
  - injection H as <-.
    destruct (receive_step_break ep_in st st1 E) as (ep & errno & strerror & Hep & Ht).
    exists (trace st), ep, errno, strerror. split; assumption.
Qed.

Lemma accept_data_returned :
  forall st st',
    accept_data st = (Ret tt, st') ->
    exists tr0 ep errno strerror,
      trace st' = tr0 ++ [Called (EpRead ep 1 0);
                          Print "failed to send IN transfer";
                          Print (str_exn (USBError errno strerror))].
Proof.
  intros st st' H. unfold accept_data in H. unfold bind at 1 in H.
  cbn [console_print log] in H. unfold bind at 1 in H.
  destruct (discover is_in _) as [[ep_in | e | s] st1]; try discriminate H.
  unfold while_true in H.
  destruct (while_fuel_receive_returns _ _ _ _ H)
    as (tr0 & ep & errno & strerror & _ & Ht).
  exists tr0, ep, errno, strerror. exact Ht.
Qed.



(** What the handlers of the receive loop do not catch leaves
    [accept_data]: an exception of a read that is neither a [USBError] nor
    a [KeyboardInterrupt], and the [IndexError] of [data[0]] when a read
    gives no byte.  Nothing is printed for it and no read follows. *)
Theorem accept_data_uncaught :
  forall dev i0 others ep turns rest tr,
    find_descriptor (endpoints i0) is_in = Some ep ->
    let upto := tr ++ [ConsolePrint "[bold blue]Accepting data...";
                       Called (GetActiveConfiguration dev)]
                   ++ flat_map (events_of dev ep) turns
                   ++ [Called (EpRead ep 1 0)] in
    accept_data
      (mkState (Some dev)
         (RConfig (i0 :: others) :: flat_map replies_of turns ++ RArray [] :: rest) tr)
    = (Raise IndexError, mkState (Some dev) rest upto) /\
    (forall e,
       (forall errno strerror, e <> USBError errno strerror) ->
       e <> KeyboardInterrupt ->
       accept_data
         (mkState (Some dev)
            (RConfig (i0 :: others) :: flat_map replies_of turns ++ RRaise e :: rest) tr)
       = (Raise e, mkState (Some dev) rest upto)).
Proof.
  intros dev i0 others ep turns rest tr Hep upto. subst upto. split.
  - rewrite accept_data_loop, Hep.
    destruct (while_true_turns turns dev ep (RArray [] :: rest)
                (tr ++ [ConsolePrint "[bold blue]Accepting data...";
                        Called (GetActiveConfiguration dev)]))
      as [fuel ->]; [discriminate |].
    cbn. flatten_trace. reflexivity.
  - intros e Husb Hint. rewrite accept_data_loop, Hep.
    destruct (while_true_turns turns dev ep (RRaise e :: rest)
                (tr ++ [ConsolePrint "[bold blue]Accepting data...";
                        Called (GetActiveConfiguration dev)]))
      as [fuel ->]; [discriminate |].
    destruct e; try (cbn; flatten_trace; reflexivity).
    + contradiction (Husb errno strerror). reflexivity.
    + contradiction Hint. reflexivity.
Qed.

Lemma accept_data_uncaught_witness :
  accept_data
    (mkState (Some 0%nat)
       [RConfig [mkInterface 0 [mkEndpoint 0x81]];
        RArray [Byte.x2a]; RArray []; RArray [Byte.x07]] [])
  = (Raise IndexError,
     mkState (Some 0%nat) [RArray [Byte.x07]]
       [ConsolePrint "[bold blue]Accepting data...";
        Called (GetActiveConfiguration 0%nat);
        Called (EpRead (mkEndpoint 0x81) 1 0); Print "42";
        Called (EpRead (mkEndpoint 0x81) 1 0)]).
Proof.
  apply (proj1 (accept_data_uncaught 0%nat (mkInterface 0 [mkEndpoint 0x81]) []
                  (mkEndpoint 0x81) [Received Byte.x2a []] [RArray [Byte.x07]] []
                  eq_refl)).
Defined.

(** Errors of discovery are outside the [try] of the receive loop: an
    exception of [get_active_configuration], a [USBError] included, leaves
    [accept_data] and [write] as it is, and a configuration without an
    interface raises [IndexError]; no transfer is made. *)
Theorem discovery_errors :
  forall dev e rest tr,
    let banner := tr ++ [ConsolePrint "[bold blue]Accepting data...";
                         Called (GetActiveConfiguration dev)] in
    let asked := tr ++ [Called (GetActiveConfiguration dev)] in
    accept_data (mkState (Some dev) (RRaise e :: rest) tr)
    = (Raise e, mkState (Some dev) rest banner) /\
    write (mkState (Some dev) (RRaise e :: rest) tr)
    = (Raise e, mkState (Some dev) rest asked) /\
    accept_data (mkState (Some dev) (RConfig [] :: rest) tr)
    = (Raise IndexError, mkState (Some dev) rest banner) /\
    write (mkState (Some dev) (RConfig [] :: rest) tr)
    = (Raise IndexError, mkState (Some dev) rest asked).
Proof.
  intros dev e rest tr banner asked. subst banner asked.
  repeat split; cbn; flatten_trace; reflexivity.
Qed.

(** An endpoint is IN or OUT and not both, so the endpoint [accept_data]
    reads from is never the one [write] writes to. *)
Theorem read_and_write_endpoints_differ :
  forall i0 ep_in ep_out,
    find_descriptor (endpoints i0) is_in = Some ep_in ->
    find_descriptor (endpoints i0) is_out = Some ep_out ->
    ep_in <> ep_out /\ is_out ep_in = false /\ is_in ep_out = false.
Proof.
  intros i0 ep_in ep_out Hin Hout.
  apply find_descriptor_some in Hin. apply find_descriptor_some in Hout.
  destruct Hin as [_ Hin]. destruct Hout as [_ Hout].
  assert (H1 : is_out ep_in = false)
    by (rewrite is_out_bit7, <- is_in_bit7, Hin; reflexivity).
  assert (H2 : is_in ep_out = false).
  { rewrite is_in_bit7. rewrite is_out_bit7 in Hout.
    apply negb_true_iff in Hout. exact Hout. }
  repeat split; try assumption.
  intros ->. rewrite H2 in Hin. discriminate Hin.
Qed.

Lemma read_and_write_endpoints_differ_witness :
  mkEndpoint 0x81 <> mkEndpoint 0x02 /\
  is_out (mkEndpoint 0x81) = false /\ is_in (mkEndpoint 0x02) = false.
Proof.
  apply (read_and_write_endpoints_differ
           (mkInterface 0 [mkEndpoint 0x02; mkEndpoint 0x81])
           (mkEndpoint 0x81) (mkEndpoint 0x02)); reflexivity.
Defined.

(** * Device selection *)

Ltac flatten_host :=
  cbn [List.app]; repeat (rewrite <- app_assoc; cbn [List.app]); rewrite ?app_nil_r.

Lemma wait_for_devices_nonempty :
  forall fuel dev lst s,
    wait_for_devices fuel (dev :: lst) s = (Ret (dev :: lst), s).
Proof. intros [| fuel] dev lst s; reflexivity. Qed.

Lemma wait_for_devices_found :
  forall k fuel lst rest a tr,
    lst <> [] -> (k < fuel)%nat ->
    wait_for_devices fuel []
      (mkSession a (waiting_replies k ++ HDevices lst :: rest) tr)
    = (Ret lst, mkSession a rest (tr ++ waiting_events (S k))).
Proof.
  induction k as [| k IH]; intros fuel lst rest a tr Hl Hk;
    (destruct fuel as [| fuel]; [lia |]).
  - destruct lst as [| dev lst]; [contradiction |].
    cbn [waiting_replies repeat List.app wait_for_devices]. unfold hbind at 1.
    cbv [find_all hbind host_invoke host_pending host_trace app_state hret].
    cbv [host_log host_pending host_trace app_state].
    rewrite wait_for_devices_nonempty. flatten_host. reflexivity.
  - cbn [waiting_replies repeat List.app].
    change (repeat (HDevices []) k) with (waiting_replies k).
    cbn [wait_for_devices]. unfold hbind at 1.
    cbv [find_all hbind host_invoke host_pending host_trace app_state hret].
    cbv [host_log host_pending host_trace app_state].
    rewrite IH by (assumption || lia).
    unfold waiting_events. cbn [repeat List.concat]. flatten_host. reflexivity.
Qed.

Lemma select_device_first_listing :
  forall int lst rest a tr,
    lst <> [] ->
    select_device int (mkSession a (HDevices lst :: rest) tr)
    = choose_device int lst (mkSession a rest (tr ++ [HCalled HFindAll])).
Proof.
  intros int lst rest a tr Hl.
  destruct lst as [| dev lst]; [contradiction |]. reflexivity.
Qed.

Lemma select_device_later_listing :
  forall int k lst rest a tr,
    lst <> [] ->
    select_device int
      (mkSession a (HDevices [] :: waiting_replies k ++ HDevices lst :: rest) tr)
    = choose_device int lst
        (mkSession a rest
           (tr ++ [HCalled HFindAll; HConsolePrint "[bold blue]Waiting for devices..."]
               ++ waiting_events (S k))).
Proof.
  intros int k lst rest a tr Hl.
  unfold select_device. unfold hbind at 1.
  cbv [find_all hbind host_invoke host_pending host_trace app_state hret
       host_print host_log].
  rewrite wait_for_devices_found; [| assumption |].
  - flatten_host. reflexivity.
  - rewrite length_app. cbn [List.length]. unfold waiting_replies.
    rewrite repeat_length. lia.
Qed.

(** [select_device] looks at the first listing of the bus that is not
    empty.  When the first one is empty it prints the waiting line once
    and lists again until a device shows up, sleeping one second after
    every listing, the successful one included. *)
Theorem select_device_waits :
  forall int k lst rest a tr,
    lst <> [] ->
    select_device int (mkSession a (HDevices lst :: rest) tr)
    = choose_device int lst (mkSession a rest (tr ++ [HCalled HFindAll])) /\
    select_device int
      (mkSession a (HDevices [] :: waiting_replies k ++ HDevices lst :: rest) tr)
    = choose_device int lst
        (mkSession a rest
           (tr ++ [HCalled HFindAll; HConsolePrint "[bold blue]Waiting for devices..."]
               ++ waiting_events (S k))).
Proof.
  intros int k lst rest a tr Hl. split.
  - apply select_device_first_listing. exact Hl.
  - apply select_device_later_listing. exact Hl.
Qed.

Lemma select_device_waits_witness :
  select_device (fun _ => inl 0)
    (mkSession (mkState None [] [])
       [HDevices []; HDevices []; HDevices [5%nat]; HText "Pixel"] [])
  = (Ret tt,
     mkSession (mkState (Some 5%nat) [] []) []
       [HCalled HFindAll; HConsolePrint "[bold blue]Waiting for devices...";
        HCalled HFindAll; HSleep 1; HCalled HFindAll; HSleep 1;
        HCalled (HGetString 5%nat);
        HConsolePrint "[bold blue]Single device is available, using [bold green]Pixel"]).
Proof.
  assert (Hl : [5%nat] <> []) by discriminate.
  exact (eq_trans
           (proj2 (select_device_waits (fun _ => inl 0) 1 [5%nat] [HText "Pixel"]
                     (mkState None [] []) [] Hl))
           eq_refl).
Defined.








(** ** What the selection leaves alone *)

Lemma keeps_app_hret : forall A (a : A), keeps_app (hret a).
Proof. intros A a s. reflexivity. Qed.

Lemma keeps_app_hraise : forall A e, keeps_app (@hraise A e).
Proof. intros A e s. reflexivity. Qed.

Lemma keeps_app_hhalt : forall A x, keeps_app (@hhalt A x).
Proof. intros A x s. reflexivity. Qed.

Lemma keeps_app_host_log : forall ev, keeps_app (host_log ev).
Proof. intros ev s. reflexivity. Qed.

Lemma keeps_app_host_invoke : forall c, keeps_app (host_invoke c).
Proof.
  intros c s. unfold host_invoke.
  destruct (host_pending s) as [| r rest]; [reflexivity |]. destruct r; reflexivity.
Qed.

Lemma keeps_app_hbind :
  forall A B (m : HostM A) (f : A -> HostM B),
    keeps_app m -> (forall a, keeps_app (f a)) -> keeps_app (hbind m f).
Proof.
  intros A B m f Hm Hf s. unfold hbind.
  specialize (Hm s). destruct (m s) as [[a | e | x] s']; cbn [snd] in *;
    try assumption.
  rewrite Hf. assumption.
Qed.

Lemma keeps_app_find_all : keeps_app find_all.
Proof.
  apply keeps_app_hbind; [apply keeps_app_host_invoke |].
  intros []; auto using keeps_app_hret, keeps_app_hhalt.
Qed.

Lemma keeps_app_get_string : forall dev, keeps_app (get_string dev).
Proof.
  intro dev. apply keeps_app_hbind; [apply keeps_app_host_invoke |].
  intros []; auto using keeps_app_hret, keeps_app_hhalt.
Qed.

Lemma keeps_app_wait_for_devices :
  forall fuel lst, keeps_app (wait_for_devices fuel lst).
Proof.
  induction fuel as [| fuel IH]; intros [| dev lst];
    cbn [wait_for_devices]; auto using keeps_app_hret, keeps_app_hhalt.
  apply keeps_app_hbind; [apply keeps_app_find_all | intro found].
  apply keeps_app_hbind; [apply keeps_app_host_log | intros _; apply IH].
Qed.

Lemma keeps_app_list_devices : forall lst i, keeps_app (list_devices i lst).
Proof.
  induction lst as [| dev lst IH]; intro i; cbn [list_devices].
  - apply keeps_app_hret.
  - apply keeps_app_hbind; [apply keeps_app_get_string | intro name].
    apply keeps_app_hbind; [apply keeps_app_host_log | intros _; apply IH].
Qed.

Lemma keeps_app_getitem : forall A (lst : list A) i, keeps_app (getitem lst i).
Proof.
  intros A lst i. unfold getitem.
  destruct (_ && _); [| apply keeps_app_hraise].
  destruct (nth_error _ _); auto using keeps_app_hret, keeps_app_hraise.
Qed.

(** A selection followed by the assignment of [device]: the state of the
    negotiation changes only when the whole returns. *)
Lemma assigns_on_return :
  forall (m : HostM handle) s o s',
    keeps_app m ->
    (dev <- m ;; lift (set_device dev))%host s = (o, s') ->
    o <> Ret tt ->
    app_state s' = app_state s.
Proof.
  intros m s o s' Hm. unfold hbind. specialize (Hm s).
  destruct (m s) as [[dev | e | x] s1]; cbn [snd] in *; intros E H;
    injection E as <- <-; try assumption.
  contradiction H. reflexivity.
Qed.

Lemma keeps_app_chosen :
  forall int lst,
    keeps_app
      (match lst with
       | [dev] =>
           name <- get_string dev ;;
           host_print ("[bold blue]Single device is available, using [bold green]"
                       ++ name)%string ;;
           hret dev
       | _ =>
           host_print "[bold blue]Available devices:" ;;
           list_devices 0 lst ;;
           r <- host_invoke (HConsoleInput "[bold blue]Select device index: ") ;;
           ind <- match r with
                  | HText s => hret s
                  | _ => hhalt IllShaped
                  end ;;
           i <- match int ind with
                | inl i => hret i
                | inr e => hraise e
                end ;;
           getitem lst i
       end)%host.
Proof.
  intros int lst.
  assert (Hask : keeps_app
            (host_print "[bold blue]Available devices:" ;;
             list_devices 0 lst ;;
             r <- host_invoke (HConsoleInput "[bold blue]Select device index: ") ;;
             ind <- match r with
                    | HText s => hret s
                    | _ => hhalt IllShaped
                    end ;;
             i <- match int ind with
                  | inl i => hret i
                  | inr e => hraise e
                  end ;;
             getitem lst i)%host).
  { apply keeps_app_hbind; [apply keeps_app_host_log | intros _].
    apply keeps_app_hbind; [apply keeps_app_list_devices | intros _].
    apply keeps_app_hbind; [apply keeps_app_host_invoke | intro r].
    apply keeps_app_hbind.
    { destruct r; auto using keeps_app_hret, keeps_app_hhalt. }
    intro ind. apply keeps_app_hbind; [| intro i; apply keeps_app_getitem].
    destruct (int ind); auto using keeps_app_hret, keeps_app_hraise. }
  destruct lst as [| d1 [| d2 lst]]; try exact Hask.
  apply keeps_app_hbind; [apply keeps_app_get_string | intro name].
  apply keeps_app_hbind; [apply keeps_app_host_log | intros _].
  apply keeps_app_hret.
Qed.

Lemma select_device_frame :
  forall int s o s',
    select_device int s = (o, s') ->
    o <> Ret tt ->
    app_state s' = app_state s.
Proof.
  intros int s o s'. unfold select_device. unfold hbind at 1.
  pose proof (keeps_app_find_all s) as H1.
  destruct (find_all s) as [[lst | e | x] s1]; cbn [snd] in *;
    try (intros E _; injection E as <- <-; exact H1).
  lazymatch goal with
  | |- context [hbind ?W ?F s1] =>
      assert (Hwait : keeps_app W);
      [| specialize (Hwait s1); unfold hbind at 1;
         destruct (W s1) as [[lst' | e | x] s2]; cbn [snd] in *;
         try (intros E _; injection E as <- <-; congruence)]
  end.
  { destruct lst; [| apply keeps_app_hret].
    apply keeps_app_hbind; [apply keeps_app_host_log | intros _].
    intro s0. apply keeps_app_wait_for_devices. }
  intros E H. rewrite <- H1, <- Hwait.
  unfold choose_device in E.
  exact (assigns_on_return _ s2 o s' (keeps_app_chosen int lst') E H).
Qed.

(** [select_device] assigns [device] as its last act: a selection that
    does not return (a listing or a product string that raises, an index
    that is no integer or out of range) leaves the [App] as it was. *)
Theorem select_device_assigns_on_return :
  forall int s,
    fst (select_device int s) <> Ret tt ->
    app_state (snd (select_device int s)) = app_state s.
Proof.
  intros int s H.
  destruct (select_device int s) as [o s'] eqn:E.
  exact (select_device_frame int s o s' E H).
Qed.

Lemma select_device_assigns_on_return_witness :
  app_state
    (snd (select_device (fun _ => inl 5)
            (mkSession (mkState (Some 1%nat) [] [])
               [HDevices [7%nat; 8%nat]; HText "Hub"; HText "Pixel"; HText "5"] [])))
  = mkState (Some 1%nat) [] [].
Proof.
  apply (select_device_assigns_on_return (fun _ => inl 5)
           (mkSession (mkState (Some 1%nat) [] [])
              [HDevices [7%nat; 8%nat]; HText "Hub"; HText "Pixel"; HText "5"] [])).
  vm_compute. discriminate.
Defined.

(** * The Arduino path *)

Lemma arduino_step_line :
  forall line rest a tr,
    arduino_step (mkSession a (arduino_replies line ++ rest) tr)
    = (Ret Continue, mkSession a rest (tr ++ arduino_events line)).
Proof.
  intros line rest a tr. unfold arduino_replies, arduino_events, arduino_step.
  cbn [List.app].
  cbv [hbind host_invoke host_pending host_trace app_state hret].
  fold (is_command line). destruct (is_command line).
  - cbv [send_data with_serial hbind host_invoke host_pending host_trace
         app_state hret].
    flatten_host. reflexivity.
  - reflexivity.
Qed.

Lemma host_while_fuel_lines :
  forall lines fuel rest a tr,
    host_while_fuel (List.length lines + fuel) arduino_step
      (mkSession a (flat_map arduino_replies lines ++ rest) tr)
    = host_while_fuel fuel arduino_step
        (mkSession a rest (tr ++ flat_map arduino_events lines)).
Proof.
  induction lines as [| line lines IH]; intros fuel rest a tr.
  - cbn [flat_map List.app List.length Nat.add]. rewrite app_nil_r. reflexivity.
  - cbn [flat_map List.length Nat.add host_while_fuel]. rewrite <- app_assoc.
    rewrite arduino_step_line, IH. rewrite <- app_assoc. reflexivity.
Qed.

Lemma host_while_true_lines :
  forall lines rest a tr,
    rest <> [] ->
    exists fuel,
      host_while_true arduino_step
        (mkSession a (flat_map arduino_replies lines ++ rest) tr)
      = host_while_fuel (S fuel) arduino_step
          (mkSession a rest (tr ++ flat_map arduino_events lines)).
Proof.
  intros lines rest a tr Hr.
  unfold host_while_true. cbn [host_pending]. rewrite length_app.
  assert (Hle : (List.length lines <= List.length (flat_map arduino_replies lines))%nat).
  { clear. induction lines as [| line lines IH]; [reflexivity |].
    cbn [flat_map List.length]. rewrite length_app.
    unfold arduino_replies at 1. cbn [List.length]. lia. }
  destruct rest as [| r rest]; [contradiction |]. cbn [List.length].
  exists (S (List.length (flat_map arduino_replies lines) - List.length lines
             + List.length rest))%nat.
  rewrite <- host_while_fuel_lines. f_equal. lia.
Qed.

(** The serial writes of a log, in order. *)
Lemma serial_writes_of_lines :
  forall lines,
    flat_map (fun ev => match ev with
                        | HCalled (HSerialWrite data) => [data]
                        | _ => []
                        end)
      (flat_map arduino_events lines)
    = map encode (filter is_command lines).
Proof.
  induction lines as [| line lines IH]; [reflexivity |].
  cbn [flat_map filter]. rewrite flat_map_app, IH.
  unfold arduino_events. destruct (is_command line); reflexivity.
Qed.

(** [write_arduino] reads lines until [input()] raises.  A line that is
    exactly [0] or [1] is sent: the port [/dev/tty.usbserial-A50285BI] is
    opened at 9600 baud, the one byte of the line is written and the port
    is closed.  Any other line is dropped without touching the port.  So
    what is written is the lines that are commands, in order. *)
Theorem write_arduino_sends_commands :
  forall lines e rest a tr,
    write_arduino
      (mkSession a (flat_map arduino_replies lines ++ HRaise e :: rest) tr)
    = (Raise e,
       mkSession a rest (tr ++ flat_map arduino_events lines ++ [HCalled HInput])) /\
    flat_map (fun ev => match ev with
                        | HCalled (HSerialWrite data) => [data]
                        | _ => []
                        end)
      (flat_map arduino_events lines)
    = map encode (filter is_command lines) /\
    (forall line, is_command line = true ->
       encode line = [Byte.x30] \/ encode line = [Byte.x31]).
Proof.
  intros lines e rest a tr. split; [| split].
  - unfold write_arduino.
    destruct (host_while_true_lines lines (HRaise e :: rest) a tr) as [fuel ->];
      [discriminate |].
    cbn. flatten_host. reflexivity.
  - apply serial_writes_of_lines.
  - intros line Hc. unfold is_command in Hc. apply orb_true_iff in Hc.
    destruct Hc as [Hc | Hc]; apply String.eqb_eq in Hc; subst line;
      [left | right]; reflexivity.
Qed.

Lemma write_arduino_sends_commands_witness :
  encode "1" = [Byte.x30] \/ encode "1" = [Byte.x31].
Proof.
  apply (proj2 (proj2 (write_arduino_sends_commands [] EOFError []
                         (mkState None [] []) [])) "1").
  reflexivity.
Defined.

(** The [with] block closes the port also when the write raises, and the
    exception of the write then ends [write_arduino]; a port that cannot
    be opened ends it with no write and no close. *)
Theorem write_arduino_serial_errors :
  forall lines command e closed rest a tr,
    is_command command = true ->
    (forall e', closed <> HRaise e') ->
    let port := HCalled (HSerialOpen "/dev/tty.usbserial-A50285BI" 9600) in
    write_arduino
      (mkSession a
         (flat_map arduino_replies lines
            ++ HText command :: HNothing :: HRaise e :: closed :: rest) tr)
    = (Raise e,
       mkSession a rest
         (tr ++ flat_map arduino_events lines
             ++ [HCalled HInput; port;
                 HCalled (HSerialWrite (encode command)); HCalled HSerialClose])) /\
    write_arduino
      (mkSession a
         (flat_map arduino_replies lines ++ HText command :: HRaise e :: rest) tr)
    = (Raise e,
       mkSession a rest
         (tr ++ flat_map arduino_events lines ++ [HCalled HInput; port])).
Proof.
  intros lines command e closed rest a tr Hc Hclosed port. subst port.
  unfold write_arduino. split.
  - destruct (host_while_true_lines lines
                (HText command :: HNothing :: HRaise e :: closed :: rest) a tr)
      as [fuel ->]; [discriminate |].
    cbn [host_while_fuel]. unfold arduino_step.
    cbv [hbind host_invoke host_pending host_trace app_state hret].
    fold (is_command command). rewrite Hc.
    cbv [send_data with_serial hbind host_invoke host_pending host_trace
         app_state hret hraise].
    destruct closed; try (flatten_host; reflexivity).
    contradiction (Hclosed e0). reflexivity.
  - destruct (host_while_true_lines lines
                (HText command :: HRaise e :: rest) a tr)
      as [fuel ->]; [discriminate |].
    cbn [host_while_fuel]. unfold arduino_step.
    cbv [hbind host_invoke host_pending host_trace app_state hret].
    fold (is_command command). rewrite Hc.
    cbv [send_data with_serial hbind host_invoke host_pending host_trace
         app_state hret hraise].
    flatten_host. reflexivity.
Qed.

Lemma write_arduino_serial_errors_witness :
  write_arduino
    (mkSession (mkState None [] [])
       (flat_map arduino_replies ["x"; "0"]
          ++ HText "1" :: HNothing :: HRaise (ValueError "write failed")
          :: HNothing :: []) [])
  = (Raise (ValueError "write failed"),
     mkSession (mkState None [] []) []
       ([] ++ flat_map arduino_events ["x"; "0"]
           ++ [HCalled HInput;
               HCalled (HSerialOpen "/dev/tty.usbserial-A50285BI" 9600);
               HCalled (HSerialWrite (encode "1")); HCalled HSerialClose])).
Proof.
  apply (proj1 (write_arduino_serial_errors ["x"; "0"] "1"
                  (ValueError "write failed") HNothing [] (mkState None [] []) []
                  eq_refl ltac:(discriminate))).
Defined.

Lemma keeps_app_arduino_step : keeps_app arduino_step.
Proof.
  unfold arduino_step.
  apply keeps_app_hbind; [apply keeps_app_host_invoke | intro r].
  apply keeps_app_hbind.
  { destruct r; auto using keeps_app_hret, keeps_app_hhalt. }
  intro user_input.
  apply keeps_app_hbind; [| intros _; apply keeps_app_hret].
  destruct (_ || _); [| apply keeps_app_hret].
  unfold send_data, with_serial.
  apply keeps_app_hbind; [apply keeps_app_host_invoke | intros _].
  intro s.
  pose proof (keeps_app_hbind _ _ (host_invoke (HSerialWrite (encode user_input)))
                (fun _ => hret tt) (keeps_app_host_invoke _)
                (fun _ => keeps_app_hret _ tt) s) as Hw.
  destruct ((_ <- host_invoke (HSerialWrite (encode user_input)) ;; hret tt)%host s)
    as [[[] | e | x] s']; cbn [snd] in *; try assumption.
  - rewrite <- Hw.
    apply (keeps_app_hbind _ _ (host_invoke HSerialClose) (fun _ => hret tt)
             (keeps_app_host_invoke _) (fun _ => keeps_app_hret _ tt)).
  - rewrite <- Hw.
    apply (keeps_app_hbind _ _ (host_invoke HSerialClose) (fun _ => hraise e)
             (keeps_app_host_invoke _) (fun _ => keeps_app_hraise unit e)).
Qed.

Lemma hbind_no_break :
  forall A (m : HostM A) (f : A -> HostM ctl),
    (forall a s, fst (f a s) <> Ret Break) ->
    forall s, fst (hbind m f s) <> Ret Break.
Proof.
  intros A m f Hf s. unfold hbind.
  destruct (m s) as [[a | e | x] s']; try discriminate. apply Hf.
Qed.

Lemma arduino_step_no_break : forall s, fst (arduino_step s) <> Ret Break.
Proof.
  unfold arduino_step.
  apply hbind_no_break. intros r.
  apply hbind_no_break. intros user_input.
  apply hbind_no_break. intros _ s. discriminate.
Qed.

Lemma host_while_fuel_arduino :
  forall fuel s,
    fst (host_while_fuel fuel arduino_step s) <> Ret tt /\
    app_state (snd (host_while_fuel fuel arduino_step s)) = app_state s.
Proof.
  induction fuel as [| fuel IH]; intro s; cbn [host_while_fuel].
  - split; [discriminate | reflexivity].
  - pose proof (arduino_step_no_break s) as Hb.
    pose proof (keeps_app_arduino_step s) as Hk.
    destruct (arduino_step s) as [[[] | e | x] s']; cbn [fst snd] in *.
    + destruct (IH s') as [H1 H2]. split; [exact H1 | congruence].
    + contradiction Hb. reflexivity.
    + split; [discriminate | assumption].
    + split; [discriminate | assumption].
Qed.

(** [write_arduino] never returns and never touches the USB side: the
    [App] and the replies and log of the negotiation stay as they are. *)
Theorem write_arduino_never_returns :
  forall s,
    fst (write_arduino s) <> Ret tt /\
    app_state (snd (write_arduino s)) = app_state s.
Proof. intro s. apply host_while_fuel_arduino. Qed.

(** * [main] *)

Lemma hbind_returns :
  forall A B (m : HostM A) (f : A -> HostM B) s b s',
    hbind m f s = (Ret b, s') ->
    exists a s1, m s = (Ret a, s1) /\ f a s1 = (Ret b, s').
Proof.
  intros A B m f s b s' H. unfold hbind in H.
  destruct (m s) as [[a | e | x] s1]; try discriminate H.
  exists a, s1. split; [reflexivity | exact H].
Qed.

(** [main] returns only in read mode, and then only because a read raised
    a [USBError]: in the other two modes it is left by an exception. *)
Theorem main_returns_after_usb_error :
  forall int mode s s',
    main int mode s = (Ret tt, s') ->
    mode = Read /\
    exists tr0 ep errno strerror,
      trace (app_state s')
      = tr0 ++ [Called (EpRead ep 1 0);
                Print "failed to send IN transfer";
                Print (str_exn (USBError errno strerror))].
Proof.
  intros int mode s s' Hmain. unfold main in Hmain.
  apply hbind_returns in Hmain. destruct Hmain as ([] & s0 & _ & Hmain).
  destruct mode.
  - apply hbind_returns in Hmain. destruct Hmain as ([] & s1 & _ & Hmain).
    apply hbind_returns in Hmain. destruct Hmain as ([] & s2 & _ & Hmain).
    unfold lift in Hmain. injection Hmain as Hw _.
    contradiction (write_does_not_return (app_state s2)).
  - split; [reflexivity |].
    apply hbind_returns in Hmain. destruct Hmain as ([] & s1 & _ & Hmain).
    apply hbind_returns in Hmain. destruct Hmain as ([] & s2 & _ & Hmain).
    unfold lift in Hmain. injection Hmain as Hr <-. cbn [app_state].
    destruct (accept_data (app_state s2)) as [o st'] eqn:E.
    cbn [fst snd] in *. subst o.
    exact (accept_data_returned _ _ E).
  - unfold write_arduino, host_while_true in Hmain.
    contradiction (proj1 (host_while_fuel_arduino
                            (S (List.length (host_pending s0))) s0)).
    rewrite Hmain. reflexivity.
Qed.

Lemma main_returns_after_usb_error_witness :
  Read = Read /\
  exists tr0 ep errno strerror,
    trace (app_state
             (mkSession
                (mkState (Some 2%nat) []
                   ([] ++ checked_log 1%nat
                       ++ map (identity_write 1%nat) identity
                       ++ [ConsolePrint "[bold green]OK";
                           ConsolePrint "Triggering accessory mode......... ";
                           mode_trigger 1%nat; Sleep 1; Called Find;
                           ConsolePrint "[bold green]OK";
                           ConsolePrint "[bold blue]Accepting data...";
                           Called (GetActiveConfiguration 2%nat);
                           Called (EpRead (mkEndpoint 0x81) 1 0);
                           Print "failed to send IN transfer";
                           Print "[Errno 19] No such device"]))
                []
                [HCalled HFindAll; HCalled (HGetString 1%nat);
                 HConsolePrint
                   "[bold blue]Single device is available, using [bold green]Pixel"]))
    = tr0 ++ [Called (EpRead ep 1 0);
              Print "failed to send IN transfer";
              Print (str_exn (USBError errno strerror))].
Proof.
  apply (main_returns_after_usb_error (fun _ => inl 0) Read
           (mkSession
              (mkState None
                 (RNone :: RArray [Byte.x02; Byte.x00]
                    :: map RInt identity_lengths
                    ++ [RInt 0; RDevice (Some 2%nat);
                        RConfig [mkInterface 0 [mkEndpoint 0x81]];
                        RRaise (USBError (Some 19) "No such device")]) [])
              [HDevices [1%nat]; HText "Pixel"] [])).
  vm_compute. reflexivity.
Defined.

(** In the two USB modes the data phase starts only after the negotiation
    returned: when a command of [prepare_device] raises, [main] is left by
    [SystemExit(1)] in the state [prepare_device] left, and neither
    [accept_data] nor [write] is entered. *)
Theorem main_negotiation_failure :
  forall int mode s s1 e,
    mode <> WriteArduino ->
    select_device int (snd (new_app s)) = (Ret tt, s1) ->
    fst (prepare_device (app_state s1)) = Raise e ->
    main int mode s
    = (Raise (SystemExit 1),
       mkSession (snd (prepare_device (app_state s1)))
         (host_pending s1) (host_trace s1)).
Proof.
  intros int mode s s1 e Hmode Hsel Hprep.
  destruct (run_commands_raises _ _ _ Hprep) as [-> _].
  assert (Hsel' : select_device int
                    (mkSession
                       (mkState None (pending (app_state s)) (trace (app_state s)))
                       (host_pending s) (host_trace s))
                  = (Ret tt, s1)) by exact Hsel.
  unfold main. unfold hbind at 1. unfold new_app.
  destruct mode; [| | contradiction Hmode; reflexivity];
    unfold hbind at 1; rewrite Hsel';
    unfold hbind at 1; unfold lift at 1; rewrite Hprep; reflexivity.
Qed.

Lemma main_negotiation_failure_witness :
  main (fun _ => inl 0) Write
    (mkSession (mkState None [RNone; RArray [Byte.x01; Byte.x00]] [])
       [HDevices [1%nat]; HText "Pixel"] [])
  = (Raise (SystemExit 1),
     mkSession
       (mkState (Some 1%nat) []
          [ConsolePrint "Verifying protocol......... ";
           Called (SetConfiguration 1%nat); version_read 1%nat;
           ConsolePrint "[bold red]FAIL";
           ConsolePrintException (unsupported_protocol Byte.x01)])
       []
       [HCalled HFindAll; HCalled (HGetString 1%nat);
        HConsolePrint
          "[bold blue]Single device is available, using [bold green]Pixel"]).
Proof.
  apply (main_negotiation_failure (fun _ => inl 0) Write
           (mkSession (mkState None [RNone; RArray [Byte.x01; Byte.x00]] [])
              [HDevices [1%nat]; HText "Pixel"] [])
           (mkSession (mkState (Some 1%nat) [RNone; RArray [Byte.x01; Byte.x00]] [])
              []
              [HCalled HFindAll; HCalled (HGetString 1%nat);
               HConsolePrint
                 "[bold blue]Single device is available, using [bold green]Pixel"])
           (SystemExit 1)).
  - discriminate.
  - reflexivity.
  - reflexivity.
Defined.

(** In Arduino mode no USB call is made: [main] starts with a fresh [App]
    and leaves the replies and the log of the USB side as they were. *)
Theorem main_arduino_mode :
  forall int s,
    app_state (snd (main int WriteArduino s))
    = mkState None (pending (app_state s)) (trace (app_state s)).
Proof.
  intros int s. unfold main. unfold hbind. cbn [new_app].
  unfold write_arduino, host_while_true.
  rewrite (proj2 (host_while_fuel_arduino _ _)). reflexivity.
Qed.

(** * The fuel of the two loops of this part is never used up *)

Lemma wait_for_devices_has_fuel :
  forall fuel lst s,
    (List.length (host_pending s) < fuel)%nat ->
    fst (wait_for_devices fuel lst s) <> Stop OutOfFuel.
Proof.
  induction fuel as [| fuel IH]; intros lst [a script tr] Hlt; [cbn in Hlt; lia |].
  destruct lst as [| dev lst]; [| discriminate].
  cbn [wait_for_devices host_pending] in *.
  destruct script as [| r script]; [discriminate |].
  destruct r; try discriminate.
  cbv [hbind find_all host_invoke host_pending host_trace app_state hret host_log].
  apply IH. cbn in *. lia.
Qed.

Lemma host_while_fuel_enough :
  forall body,
    (forall s, fst (body s) <> Stop OutOfFuel) ->
    (forall s s', body s = (Ret Continue, s') ->
       (List.length (host_pending s') < List.length (host_pending s))%nat) ->
    forall fuel s,
      (List.length (host_pending s) < fuel)%nat ->
      fst (host_while_fuel fuel body s) <> Stop OutOfFuel.
Proof.
  intros body Hno Hcons fuel.
  induction fuel as [| fuel IH]; intros s Hlt; [lia |].
  cbn [host_while_fuel]. specialize (Hno s). specialize (Hcons s).
  destruct (body s) as [[[] | e | x] s']; cbn [fst] in *.
  - apply IH. specialize (Hcons s' eq_refl). lia.
  - discriminate.
  - discriminate.
  - intro E. apply Hno. injection E as ->. reflexivity.
Qed.

Lemma arduino_step_consumes :
  forall s,
    fst (arduino_step s) <> Stop OutOfFuel /\
    (forall s', arduino_step s = (Ret Continue, s') ->
       (List.length (host_pending s') < List.length (host_pending s))%nat).
Proof.
  intros [a script tr].
  destruct script as [| r script];
    [split; [discriminate | intros s' E; discriminate E] |].
  destruct r as [| l | line | n | e];
    try (split; [discriminate | intros s' E; discriminate E]).
  unfold arduino_step.
  cbv [hbind host_invoke host_pending host_trace app_state hret].
  fold (is_command line). destruct (is_command line).
  - cbv [send_data with_serial hbind host_invoke host_pending host_trace
         app_state hret hraise].
    destruct script as [| opened script];
      [split; [discriminate | intros s' E; discriminate E] |].
    destruct opened;
      try (split; [discriminate | intros s' E; discriminate E]);
      (destruct script as [| written script];
       [split; [discriminate | intros s' E; discriminate E] |]);
      destruct written;
      (destruct script as [| closed script];
       [split; [discriminate | intros s' E; discriminate E] |]);
      destruct closed;
      (split; [discriminate | intros s' E]);
      try discriminate E; injection E as <-; cbn; lia.
  - split; [discriminate |]. intros s' E. injection E as <-. cbn. lia.
Qed.

Lemma host_loops_have_fuel :
  forall s,
    fst (write_arduino s) <> Stop OutOfFuel /\
    fst (wait_for_devices (S (List.length (host_pending s))) [] s) <> Stop OutOfFuel.
Proof.
  intro s. split.
  - unfold write_arduino, host_while_true. apply host_while_fuel_enough; try lia.
    + intro s0. apply arduino_step_consumes.
    + intros s0 s'. apply arduino_step_consumes.
  - apply wait_for_devices_has_fuel. lia.
Qed.
